(** * open-typeless: trigger detection, window presentation and ASR IPC stubs

    A shallow embedding of the executable TypeScript of the repository:

    - the push-to-talk key handling of the global keyboard hook guide
      ([handleKeyDown], [handleKeyUp], [isDebounced]);
    - the floating-window manager of the window lifecycle guide
      ([show], [hide], [setContentHeight], [sendStatus]);
    - the [ASRStatus] union of the shared types;
    - the ASR IPC handlers registered by [setupASRHandlers], and the
      registration chain [setupAllIpcHandlers];
    - the Bluetooth remote of the HID device guide: click detection
      ([handleButtonPress]) and the connection loop ([initBluetoothRemote],
      [scheduleReconnect], [cleanup]).

    JavaScript numbers that hold millisecond timestamps, key codes and pixel
    heights are integers in every call the program makes; they are modelled
    by [Z].  Early [return]s become nested conditionals.  Side effects
    (console output, callback invocation, window calls) are collected in an
    effect list, in program order. *)

From Stdlib Require Import ZArith List String Bool Lia.
From Stdlib Require Strings.Byte.
From stdpp Require Import gmap strings list.
Import ListNotations.

Local Open Scope string_scope.
Local Open Scope list_scope.
Local Open Scope Z_scope.

(** ** Programs with state and effects

    A method body is a function from the state before the call to its
    result, the state after the call and the effects it performed. *)

Section Prog.

Context {St Ev : Type}.

Definition Prog (A : Type) : Type := St -> A * St * list Ev.

Definition ret {A} (a : A) : Prog A := fun s => (a, s, []).

Definition bind {A B} (m : Prog A) (k : A -> Prog B) : Prog B :=
  fun s =>
    let '(a, s1, e1) := m s in
    let '(b, s2, e2) := k a s1 in
    (b, s2, e1 ++ e2).

Definition gets {A} (f : St -> A) : Prog A := fun s => (f s, s, []).

Definition modifies (f : St -> St) : Prog unit := fun s => (tt, f s, []).

Definition emit (e : Ev) : Prog unit := fun s => (tt, s, [e]).

Definition result {A} (m : Prog A) (s : St) : A := fst (fst (m s)).
Definition exec {A} (m : Prog A) (s : St) : St := snd (fst (m s)).
Definition effects {A} (m : Prog A) (s : St) : list Ev := snd (m s).

End Prog.

Arguments Prog : clear implicits.

Notation "x <- m ;; k" := (bind m (fun x => k))
  (at level 100, m at next level, right associativity).
Notation "m ;;; k" := (bind m (fun _ => k))
  (at level 100, right associativity).

(** ** Push-to-talk trigger (global keyboard hook) *)

Module PushToTalk.

(** A registered callback is an opaque handle: the trigger layer only stores
    it and invokes it. *)
Definition callback := nat.

Record Config := {
  pushToTalkKey : Z;
  debounceMs : Z;
  minRecordingMs : Z
}.

Record State := {
  isKeyHeld : bool;
  lastKeyDownTime : Z;
  lastKeyUpTime : Z;
  recordingStartTime : Z;
  onStart : option callback;
  onStop : option callback
}.

(** The module-level [state] object as first initialised. *)
Definition state0 : State := {|
  isKeyHeld := false;
  lastKeyDownTime := 0;
  lastKeyUpTime := 0;
  recordingStartTime := 0;
  onStart := None;
  onStop := None
|}.

Definition set_isKeyHeld (b : bool) (s : State) : State := {|
  isKeyHeld := b;
  lastKeyDownTime := lastKeyDownTime s;
  lastKeyUpTime := lastKeyUpTime s;
  recordingStartTime := recordingStartTime s;
  onStart := onStart s;
  onStop := onStop s
|}.

Definition set_lastKeyDownTime (t : Z) (s : State) : State := {|
  isKeyHeld := isKeyHeld s;
  lastKeyDownTime := t;
  lastKeyUpTime := lastKeyUpTime s;
  recordingStartTime := recordingStartTime s;
  onStart := onStart s;
  onStop := onStop s
|}.

Definition set_lastKeyUpTime (t : Z) (s : State) : State := {|
  isKeyHeld := isKeyHeld s;
  lastKeyDownTime := lastKeyDownTime s;
  lastKeyUpTime := t;
  recordingStartTime := recordingStartTime s;
  onStart := onStart s;
  onStop := onStop s
|}.

Definition set_recordingStartTime (t : Z) (s : State) : State := {|
  isKeyHeld := isKeyHeld s;
  lastKeyDownTime := lastKeyDownTime s;
  lastKeyUpTime := lastKeyUpTime s;
  recordingStartTime := t;
  onStart := onStart s;
  onStop := onStop s
|}.

Definition set_callbacks (f g : option callback) (s : State) : State := {|
  isKeyHeld := isKeyHeld s;
  lastKeyDownTime := lastKeyDownTime s;
  lastKeyUpTime := lastKeyUpTime s;
  recordingStartTime := recordingStartTime s;
  onStart := f;
  onStop := g
|}.

(** What a handler does to the outside, in order. *)
Inductive Effect :=
| ConsoleLog (msg : string)
| InvokeOnStart (f : callback)
| InvokeOnStop (f : callback).

Definition isCallback (e : Effect) : bool :=
  match e with
  | ConsoleLog _ => false
  | InvokeOnStart _ | InvokeOnStop _ => true
  end.

(** The callback invocations among a list of effects. *)
Definition callbacks (es : list Effect) : list Effect := List.filter isCallback es.

(** The world a handler runs in: the [state] object and the system clock.
    [clock w n] is the value the [n]-th call of [Date.now()] returns and
    [reads w] counts the calls made so far, so that two calls inside one
    handler may return different values. *)
Record World := {
  state : State;
  clock : nat -> Z;
  reads : nat
}.

Definition nextReading (w : World) : Z := clock w (reads w).

(** Handlers are computations over the world that also emit effects. *)
Definition M (A : Type) : Type := Prog World Effect A.

Definition get : M State := gets state.

Definition modify (f : State -> State) : M unit :=
  modifies (fun w => {| state := f (state w); clock := clock w; reads := reads w |}).

(** [Date.now()] *)
Definition Date_now : M Z :=
  fun w => (clock w (reads w),
            {| state := state w; clock := clock w; reads := S (reads w) |}, []).

Definition console_log (msg : string) : M unit := emit (ConsoleLog msg).

(** [f?.()] for a nullable callback [f]. *)
Definition call_opt (mk : callback -> Effect) (f : option callback) : M unit :=
  match f with
  | Some c => emit (mk c)
  | None => ret tt
  end.

Section WithKey.

(** [UiohookKey.AltRight], a constant of the uiohook-napi package. *)
Variable AltRight : Z.

Definition CONFIG : Config := {|
  pushToTalkKey := AltRight;
  debounceMs := 50;
  minRecordingMs := 200
|}.

Definition isDebounced (lastTime : Z) : M bool :=
  now <- Date_now ;;
  ret (now - lastTime <? debounceMs CONFIG).

Definition handleKeyDown (keycode : Z) : M unit :=
  if negb (keycode =? pushToTalkKey CONFIG) then ret tt else
  s <- get ;;
  debounced <- isDebounced (lastKeyDownTime s) ;;
  if debounced then ret tt else
  s <- get ;;
  if isKeyHeld s then ret tt else
  modify (set_isKeyHeld true) ;;;
  t <- Date_now ;;
  modify (set_lastKeyDownTime t) ;;;
  t <- Date_now ;;
  modify (set_recordingStartTime t) ;;;
  console_log "Push-to-talk: START" ;;;
  s <- get ;;
  call_opt InvokeOnStart (onStart s).

Definition handleKeyUp (keycode : Z) : M unit :=
  if negb (keycode =? pushToTalkKey CONFIG) then ret tt else
  s <- get ;;
  if negb (isKeyHeld s) then ret tt else
  debounced <- isDebounced (lastKeyUpTime s) ;;
  if debounced then ret tt else
  now <- Date_now ;;
  s <- get ;;
  if now - recordingStartTime s <? minRecordingMs CONFIG then
    console_log "Recording too short, ignoring" ;;;
    modify (set_isKeyHeld false)
  else
    modify (set_isKeyHeld false) ;;;
    t <- Date_now ;;
    modify (set_lastKeyUpTime t) ;;;
    console_log "Push-to-talk: STOP" ;;;
    s <- get ;;
    call_opt InvokeOnStop (onStop s).

(** [registerPushToTalk] stores the two callbacks, attaches [handleKeyDown]
    and [handleKeyUp] to the hook's keydown and keyup events and starts the
    hook.  The hook itself belongs to uiohook-napi; what it does once
    started, calling the attached handler for each raw signal, is [deliver]
    below. *)
Definition registerPushToTalk (onStart' onStop' : callback) : M unit :=
  modify (set_callbacks (Some onStart') (Some onStop')) ;;;
  console_log "Push-to-talk registered: Hold Right Alt to record".

(** [unregisterPushToTalk] stops the hook and clears the callbacks and the
    held flag. *)
Definition unregisterPushToTalk : M unit :=
  modify (set_callbacks None None) ;;;
  modify (set_isKeyHeld false).

(** A raw signal of the keyboard hook. *)
Inductive RawEvent :=
| KeyDown (keycode : Z)
| KeyUp (keycode : Z).

Definition deliver (ev : RawEvent) : M unit :=
  match ev with
  | KeyDown k => handleKeyDown k
  | KeyUp k => handleKeyUp k
  end.

(** The time recorded for the last accepted signal of the kind of [ev]. *)
Definition lastAccepted (ev : RawEvent) (s : State) : Z :=
  match ev with
  | KeyDown _ => lastKeyDownTime s
  | KeyUp _ => lastKeyUpTime s
  end.

(** One delivered signal, with the world on both sides of it. *)
Record Step := {
  before : World;
  event : RawEvent;
  after : World;
  emitted : list Effect
}.

Fixpoint trace (evs : list RawEvent) (w : World) : list Step :=
  match evs with
  | [] => []
  | ev :: rest =>
      let w' := exec (deliver ev) w in
      {| before := w; event := ev; after := w'; emitted := effects (deliver ev) w |}
        :: trace rest w'
  end.

(** The step invoked the start callback. *)
Definition firesStart (s : Step) : Prop := exists f, In (InvokeOnStart f) (emitted s).

(** The step is a key-up that cleared the held flag. *)
Definition releasesHeld (s : Step) : Prop :=
  (exists k, event s = KeyUp k) /\
  isKeyHeld (state (before s)) = true /\
  isKeyHeld (state (after s)) = false.

End WithKey.

(** Sample data for concrete runs: the key code uiohook reports for the
    right Alt key, a wall-clock time in milliseconds, and a world in which
    callbacks [1] and [2] have been registered. *)
Definition sampleKey : Z := 3640.
Definition sampleEpoch : Z := 1700000000000.

Definition worldAt (c : nat -> Z) : World :=
  exec (registerPushToTalk 1%nat 2%nat) {| state := state0; clock := c; reads := 0 |}.

(** A clock given by its successive readings; once they are used up it
    stays at [final]. *)
Definition clockOf (readings : list Z) (final : Z) (n : nat) : Z :=
  nth n readings final.


(** Successive readings [d] milliseconds apart. *)
Definition everyMs (d : Z) : nat -> Z :=
  clockOf (map (fun i => sampleEpoch + d * i) [0; 1; 2; 3; 4; 5; 6; 7; 8; 9])
          (sampleEpoch + d * 10).



End PushToTalk.

(** ** Shared types *)

Module Shared.

(** The [ASRStatus] union of string literals, one constructor per member,
    in the order of the declaration. *)
Inductive ASRStatus :=
| idle
| connecting
| listening
| processing
| done
| error.

(** The string literal each member is at run time. *)
Definition ASRStatus_name (s : ASRStatus) : string :=
  match s with
  | idle => "idle"
  | connecting => "connecting"
  | listening => "listening"
  | processing => "processing"
  | done => "done"
  | error => "error"
  end.

Definition ASRStatus_values : list ASRStatus :=
  [idle; connecting; listening; processing; done; error].

(** Whether a run-time string is a member of the union. *)
Definition isASRStatus (name : string) : bool :=
  existsb (fun s => String.eqb (ASRStatus_name s) name) ASRStatus_values.

(** Position of a member in the declaration. *)
Definition ASRStatus_index (s : ASRStatus) : nat :=
  match s with
  | idle => 0
  | connecting => 1
  | listening => 2
  | processing => 3
  | done => 4
  | error => 5
  end.

(** The six state names as the design document lists them, written as the
    lower-case literals the status stream would carry. *)
Definition documented_status_names : list string :=
  ["idle"; "connecting"; "listening"; "finalizing"; "done"; "error"].

End Shared.

(** ** Floating window manager *)

Module FloatingWindow.

Record Rectangle := {
  x : Z;
  y : Z;
  width : Z;
  height : Z
}.

(** What the manager observes of its Electron window. *)
Record BrowserWindow := {
  visible : bool;
  bounds : Rectangle
}.

Record WindowManager := {
  window : option BrowserWindow;
  currentHeight : Z
}.

Inductive Effect :=
| WindowCreate
| ResetHeightSync
| ClearPreviousContent
| WindowShowInactive
| WindowHide
| WindowSetBounds (r : Rectangle)
| WebContentsSend (channel : string) (status : string).

(** How a method call ends: it returns, or a member access on a [null]
    window raises a [TypeError]. *)
Inductive Completion :=
| Returned
| TypeError.

Definition W (A : Type) : Type := Prog WindowManager Effect A.

Definition isSetup (e : Effect) : bool :=
  match e with
  | ResetHeightSync => true
  | _ => false
  end.

Definition isClear (e : Effect) : bool :=
  match e with
  | ClearPreviousContent => true
  | _ => false
  end.

Definition isSend (e : Effect) : bool :=
  match e with
  | WebContentsSend _ _ => true
  | _ => false
  end.

(** The effect forwards status [name] to the renderer. *)
Definition sendsStatus (name : string) (e : Effect) : bool :=
  match e with
  | WebContentsSend _ st => String.eqb st name
  | _ => false
  end.

Definition isSetBounds (e : Effect) : bool :=
  match e with
  | WindowSetBounds _ => true
  | _ => false
  end.

(** [this.window?.isVisible() ?? false] *)
Definition isVisible (wm : WindowManager) : bool :=
  match window wm with
  | Some w => visible w
  | None => false
  end.

Definition bottomEdge (r : Rectangle) : Z := y r + height r.

Definition set_window (w : option BrowserWindow) (wm : WindowManager) : WindowManager :=
  {| window := w; currentHeight := currentHeight wm |}.

Definition set_currentHeight (h : Z) (wm : WindowManager) : WindowManager :=
  {| window := window wm; currentHeight := h |}.

Definition set_visible (b : bool) (w : BrowserWindow) : BrowserWindow :=
  {| visible := b; bounds := bounds w |}.

Definition set_bounds (r : Rectangle) (w : BrowserWindow) : BrowserWindow :=
  {| visible := visible w; bounds := r |}.

(** [Array.prototype.includes] on string literals. *)
Definition includes (l : list string) (s : string) : bool :=
  existsb (String.eqb s) l.

Section WithLayout.

(** Layout constants and screen geometry the guide's code refers to without
    defining them. *)
Variables MIN_HEIGHT MAX_HEIGHT CHROME_HEIGHT DEBOUNCE_THRESHOLD : Z.
Variables BOTTOM_OFFSET WIDTH screenHeight : Z.

(** The bounds a freshly created window has. *)
Variable initialBounds : Rectangle.

(** Modelled from the spec: [create()] is called by [show] but its body is
    not in the source.  It leaves the manager with a window that exists and
    is hidden (the lifecycle diagram's "create() -> hidden (created)"). *)
Definition create : W unit :=
  modifies (set_window (Some {| visible := false; bounds := initialBounds |})) ;;;
  emit WindowCreate.

(** Modelled from the spec: [resetHeightSync()] is called by [show] but its
    body is not in the source.  It is the "reset stored height" half of the
    first-time setup. *)
Definition resetHeightSync : W unit :=
  modifies (set_currentHeight MIN_HEIGHT) ;;;
  emit ResetHeightSync.

(** Modelled from the spec: [clearPreviousContent()] is called by [show] but
    its body is not in the source.  It is the "clear stale content" half of
    the first-time setup, which touches the renderer only. *)
Definition clearPreviousContent : W unit :=
  emit ClearPreviousContent.

(** [this.window?.showInactive()] *)
Definition window_showInactive : W unit :=
  w <- gets window ;;
  match w with
  | Some win => modifies (set_window (Some (set_visible true win))) ;;; emit WindowShowInactive
  | None => ret tt
  end.

(** [this.window?.hide()] *)
Definition window_hide : W unit :=
  w <- gets window ;;
  match w with
  | Some win => modifies (set_window (Some (set_visible false win))) ;;; emit WindowHide
  | None => ret tt
  end.

Definition show : W unit :=
  w <- gets window ;;
  (match w with
   | None => create
   | Some _ => ret tt
   end) ;;;
  wasVisible <- gets isVisible ;;
  (if negb wasVisible then
     resetHeightSync ;;;
     clearPreviousContent
   else ret tt) ;;;
  window_showInactive.

Definition hide : W unit :=
  window_hide ;;;
  modifies (set_currentHeight MIN_HEIGHT).

(** [bounds] in the guide's snippet is the window's current rectangle. *)
Definition setContentHeight (contentHeight : Z) : W Completion :=
  cur <- gets currentHeight ;;
  let targetHeight := Z.min (CHROME_HEIGHT + contentHeight) MAX_HEIGHT in
  if Z.abs (targetHeight - cur) <? DEBOUNCE_THRESHOLD then ret Returned else
  let newY := screenHeight - targetHeight - BOTTOM_OFFSET in
  w <- gets window ;;
  match w with
  | None => ret TypeError
  | Some win =>
      let r := {| x := x (bounds win); y := newY; width := WIDTH; height := targetHeight |} in
      modifies (set_window (Some (set_bounds r win))) ;;;
      emit (WindowSetBounds r) ;;;
      modifies (set_currentHeight targetHeight) ;;;
      ret Returned
  end.

Definition sendStatus (status : string) : W Completion :=
  let shouldBeVisible := includes ["connecting"; "listening"; "processing"] status in
  let shouldHide := String.eqb status "idle" in
  (if shouldBeVisible then show else ret tt) ;;;
  if shouldHide then
    hide ;;;
    ret Returned
  else
    w <- gets window ;;
    match w with
    | None => ret TypeError
    | Some _ => emit (WebContentsSend "status" status) ;;; ret Returned
    end.

(** A request is accepted when it changes the window's bounds. *)
Definition accepted (contentHeight : Z) (wm : WindowManager) : Prop :=
  existsb isSetBounds (effects (setContentHeight contentHeight) wm) = true.

(** Calls on the manager's visibility. *)
Inductive Op :=
| Show
| Hide.

Definition perform (o : Op) : W unit :=
  match o with
  | Show => show
  | Hide => hide
  end.

Fixpoint performAll (ops : list Op) : W unit :=
  match ops with
  | [] => ret tt
  | o :: rest => perform o ;;; performAll rest
  end.

(** The hidden-to-visible edges crossed while running [ops]. *)
Fixpoint edges (ops : list Op) (wm : WindowManager) : nat :=
  match ops with
  | [] => 0
  | o :: rest =>
      let wm' := exec (perform o) wm in
      ((if negb (isVisible wm) && isVisible wm' then 1 else 0) + edges rest wm')%nat
  end.

Definition setups (es : list Effect) : nat := length (List.filter isSetup es).
Definition clears (es : list Effect) : nat := length (List.filter isClear es).

End WithLayout.

(** Sample layout for concrete runs: a 400 px wide window on a 1080 px high
    screen, its bottom edge 80 px above the screen's, currently 100 px
    high. *)
Definition sampleBounds : Rectangle :=
  {| x := 760; y := 900; width := 400; height := 100 |}.

Definition sampleManager : WindowManager :=
  {| window := Some {| visible := true; bounds := sampleBounds |};
     currentHeight := 100 |}.

Definition sampleSetContentHeight : Z -> W Completion :=
  setContentHeight 400 40 4 80 400 1080.

End FloatingWindow.

(** ** ASR IPC handlers *)

Module AsrIpc.

Record AsrChannels := {
  START : string;
  STOP : string;
  SEND_AUDIO : string;
  RESULT : string;
  STATUS : string;
  ERROR : string
}.

Definition IPC_CHANNELS_ASR : AsrChannels := {|
  START := "asr:start";
  STOP := "asr:stop";
  SEND_AUDIO := "asr:send-audio";
  RESULT := "asr:result";
  STATUS := "asr:status";
  ERROR := "asr:error"
|}.

(** An argument that arrives over IPC. *)
Inductive JSValue :=
| JSUndefined
| JSNull
| JSBoolean (b : bool)
| JSNumber (n : Z)
| JSString (s : string)
| JSObject (fields : list JSField)
with JSField :=
| Field (name : string) (value : JSValue).

Record Reply := { success : bool }.

(** How the promise of an [async] handler settles. *)
Inductive Settled :=
| Resolved (v : Reply)
| Rejected (reason : string).

(** The work the handlers' comments plan; a handler's effect list says which
    of it a call performed. *)
Inductive Effect :=
| InitASRService
| StartAudioCapture
| ConnectWebSocket
| StopAudioCapture
| CloseWebSocket
| ForwardAudioChunk.

Definition InvokeHandler : Type := list JSValue -> Settled * list Effect.
Definition Listener : Type := list JSValue -> list Effect.

(** Electron's [ipcMain]: at most one [handle]r per channel, any number of
    [on] listeners. *)
Record IpcMain := {
  invokeHandlers : gmap string InvokeHandler;
  listeners : gmap string (list Listener)
}.

Definition emptyIpcMain : IpcMain := {| invokeHandlers := ∅; listeners := ∅ |}.

(** [ipcMain.handle(channel, h)]; [None] is Electron's error for a channel
    that already has a handler. *)
Definition ipcMain_handle (channel : string) (h : InvokeHandler) (ipc : IpcMain)
  : option IpcMain :=
  match invokeHandlers ipc !! channel with
  | Some _ => None
  | None => Some {| invokeHandlers := <[channel := h]> (invokeHandlers ipc);
                    listeners := listeners ipc |}
  end.

(** [ipcMain.on(channel, l)] *)
Definition ipcMain_on (channel : string) (l : Listener) (ipc : IpcMain) : IpcMain :=
  {| invokeHandlers := invokeHandlers ipc;
     listeners := <[channel := default [] (listeners ipc !! channel) ++ [l]]> (listeners ipc) |}.

(** [async (_event, _config) => { return { success: true }; }] *)
Definition startHandler : InvokeHandler :=
  fun _args => (Resolved {| success := true |}, []).

(** [async () => { return { success: true }; }] *)
Definition stopHandler : InvokeHandler :=
  fun _args => (Resolved {| success := true |}, []).

(** [(_event, _chunk) => { }] *)
Definition sendAudioListener : Listener :=
  fun _args => [].

Definition setupASRHandlers (ipc : IpcMain) : option IpcMain :=
  ipc1 ← ipcMain_handle (START IPC_CHANNELS_ASR) startHandler ipc;
  ipc2 ← ipcMain_handle (STOP IPC_CHANNELS_ASR) stopHandler ipc1;
  Some (ipcMain_on (SEND_AUDIO IPC_CHANNELS_ASR) sendAudioListener ipc2).

(** What [ipcRenderer.invoke(channel, ...args)] gets back. *)
Definition ipcInvoke (ipc : IpcMain) (channel : string) (args : list JSValue)
  : Settled * list Effect :=
  match invokeHandlers ipc !! channel with
  | Some h => h args
  | None => (Rejected ("No handler registered for '" ++ channel ++ "'")%string, [])
  end.

End AsrIpc.

(** ** Runs of the push-to-talk trigger *)

Module PushToTalkRuns.
Import PushToTalk.

(** The world after a sequence of raw signals. *)
Definition run (key : Z) (evs : list RawEvent) (w : World) : World :=
  fold_left (fun w' ev => exec (deliver key ev) w') evs w.

(** Everything the handlers emit during a sequence of raw signals. *)
Definition allEffects (key : Z) (evs : list RawEvent) (w : World) : list Effect :=
  concat (map emitted (trace key evs w)).

(** The step logged an accepted press, respectively an accepted release. *)
Definition acceptsPress (s : Step) : Prop :=
  In (ConsoleLog "Push-to-talk: START") (emitted s).

Definition acceptsRelease (s : Step) : Prop :=
  In (ConsoleLog "Push-to-talk: STOP") (emitted s).

Definition holds (a : option callback) (f : callback) : bool :=
  match a with
  | Some g => Nat.eqb g f
  | None => false
  end.

(** A callback invocation is of the callback registered in [st]. *)
Definition registeredCall (st : State) (e : Effect) : bool :=
  match e with
  | ConsoleLog _ => true
  | InvokeOnStart f => holds (onStart st) f
  | InvokeOnStop f => holds (onStop st) f
  end.

(** A clock that never runs backwards. *)
Definition monotone (c : nat -> Z) : Prop := forall n : nat, c n <= c (S n).

(** The recorded times lie in the past and in the order they were taken. *)
Definition stampsOrdered (w : World) : Prop :=
  lastKeyDownTime (state w) <= recordingStartTime (state w) /\
  recordingStartTime (state w) <= nextReading w /\
  lastKeyUpTime (state w) <= nextReading w /\
  (isKeyHeld (state w) = true ->
   lastKeyUpTime (state w) <= recordingStartTime (state w)).

(** The guide's reset for a key stuck in the held state: the
    browser-window-blur listener. *)
Definition onBrowserWindowBlur : M unit :=
  s <- get ;;
  if isKeyHeld s then modify (set_isKeyHeld false) else ret tt.

End PushToTalkRuns.

(** ** Status-driven visibility *)

Module FloatingWindowRuns.
Import FloatingWindow.

(** The statuses for which [sendStatus] shows the window. *)
Definition visibleStatuses : list string := ["connecting"; "listening"; "processing"].

Definition shows (status : string) : bool := includes visibleStatuses status.
Definition hides (status : string) : bool := String.eqb status "idle".

(** [this.window] is not [null]. *)
Definition hasWindow (wm : WindowManager) : bool :=
  match window wm with
  | Some _ => true
  | None => false
  end.

(** The target height [setContentHeight] computes for a content height. *)
Definition targetHeight (CHROME_HEIGHT MAX_HEIGHT contentHeight : Z) : Z :=
  Z.min (CHROME_HEIGHT + contentHeight) MAX_HEIGHT.

End FloatingWindowRuns.

(** ** ASR IPC: the registration chain and event delivery *)

Module AsrIpcRuns.
Import AsrIpc.

(** [setupAllIpcHandlers] of the IPC index module. *)
Definition setupAllIpcHandlers (ipc : IpcMain) : option IpcMain :=
  setupASRHandlers ipc.

(** What [ipcRenderer.send(channel, ...args)] causes in the main process:
    every listener of the channel runs, in registration order. *)
Definition ipcSend (ipc : IpcMain) (channel : string) (args : list JSValue)
  : list Effect :=
  concat (map (fun l : Listener => l args) (default [] (listeners ipc !! channel))).

End AsrIpcRuns.

(** ** Bluetooth remote: click detection *)

Module RemoteClicks.

(** A timer of the JavaScript runtime, as [setTimeout] returns it. *)
Definition TimerId := nat.

Record Config := {
  doubleClickMs : Z;
  debounceMs : Z
}.

Definition CONFIG : Config := {|
  doubleClickMs := 500;
  debounceMs := 50
|}.

(** The module variables [lastPressTime] and [pendingClick], and the
    runtime's table of timers that are scheduled and have neither fired nor
    been cleared, each with its delay. *)
Record World := {
  lastPressTime : Z;
  pendingClick : option TimerId;
  timers : list (TimerId * Z);
  nextTimer : TimerId
}.

Definition world0 : World := {|
  lastPressTime := 0;
  pendingClick := None;
  timers := [];
  nextTimer := 0%nat
|}.

Inductive Effect :=
| HandleDoubleClick
| HandleSingleClick.

Definition P (A : Type) : Type := Prog World Effect A.

Definition set_lastPressTime (t : Z) (w : World) : World :=
  {| lastPressTime := t; pendingClick := pendingClick w;
     timers := timers w; nextTimer := nextTimer w |}.

Definition set_pendingClick (p : option TimerId) (w : World) : World :=
  {| lastPressTime := lastPressTime w; pendingClick := p;
     timers := timers w; nextTimer := nextTimer w |}.

Definition isLive (id : TimerId) (w : World) : bool :=
  existsb (fun t => Nat.eqb (fst t) id) (timers w).

(** [setTimeout(callback, delay)]: a new timer, different from every timer
    handed out before. *)
Definition setTimeout (delay : Z) : P TimerId :=
  fun w => (nextTimer w,
            {| lastPressTime := lastPressTime w; pendingClick := pendingClick w;
               timers := timers w ++ [(nextTimer w, delay)];
               nextTimer := S (nextTimer w) |},
            []).

(** The table entries that are not timer [id]. *)
Definition keep (id : TimerId) (t : TimerId * Z) : bool := negb (Nat.eqb (fst t) id).

(** [clearTimeout(id)] *)
Definition clearTimeout (id : TimerId) : P unit :=
  modifies (fun w =>
    {| lastPressTime := lastPressTime w; pendingClick := pendingClick w;
       timers := List.filter (keep id) (timers w);
       nextTimer := nextTimer w |}).

(** The test that makes a press the second half of a double click. *)
Definition isDoubleClick (timeSinceLastPress : Z) : bool :=
  (timeSinceLastPress <? doubleClickMs CONFIG)
  && (debounceMs CONFIG <? timeSinceLastPress).

(** [handleButtonPress]; [now] is what its one call of [Date.now()]
    returns.  [handleDoubleClick] and [handleSingleClick] belong to the
    application and appear as effects. *)
Definition handleButtonPress (now : Z) : P unit :=
  last <- gets lastPressTime ;;
  let timeSinceLastPress := now - last in
  modifies (set_lastPressTime now) ;;;
  if isDoubleClick timeSinceLastPress then
    p <- gets pendingClick ;;
    (match p with
     | Some id => clearTimeout id ;;; modifies (set_pendingClick None)
     | None => ret tt
     end) ;;;
    emit HandleDoubleClick
  else
    id <- setTimeout (doubleClickMs CONFIG) ;;
    modifies (set_pendingClick (Some id)).

(** The callback every timer of [handleButtonPress] carries. *)
Definition singleClickCallback : P unit :=
  modifies (set_pendingClick None) ;;;
  emit HandleSingleClick.

(** The runtime fires timer [id]: a live timer leaves the table and its
    callback runs; a timer that fired or was cleared does nothing. *)
Definition fire (id : TimerId) : P unit :=
  live <- gets (isLive id) ;;
  if live then clearTimeout id ;;; singleClickCallback else ret tt.

(** The device's data listener: a report is a button press when it has at
    least two bytes and the byte after the report id is not zero. *)
Definition isButtonPress (data : list Byte.byte) : bool :=
  (2 <=? length data)%nat
  && match nth_error data 1 with
     | Some b => negb (Byte.eqb b Byte.x00)
     | None => false
     end.

Definition onData (data : list Byte.byte) (now : Z) : P unit :=
  if isButtonPress data then handleButtonPress now else ret tt.

(** What can happen to the click detector: the device delivers a report at
    some time, or the runtime fires a timer. *)
Inductive Event :=
| Report (data : list Byte.byte) (now : Z)
| Fire (id : TimerId).

Definition handle (ev : Event) : P unit :=
  match ev with
  | Report data now => onData data now
  | Fire id => fire id
  end.

Fixpoint handleAll (evs : list Event) : P unit :=
  match evs with
  | [] => ret tt
  | ev :: rest => handle ev ;;; handleAll rest
  end.

Definition isPressEvent (ev : Event) : bool :=
  match ev with
  | Report data _ => isButtonPress data
  | Fire _ => false
  end.

(** The button presses among the events. *)
Definition presses (evs : list Event) : nat := length (List.filter isPressEvent evs).

(** Timer ids in the table are ones already handed out, no id is in the
    table twice, every timer has the double-click delay, and
    [pendingClick], when set, names a timer in the table. *)
Definition wellFormed (w : World) : Prop :=
  (forall id d, In (id, d) (timers w) ->
                (id < nextTimer w)%nat /\ d = doubleClickMs CONFIG) /\
  List.NoDup (map fst (timers w)) /\
  (forall id, pendingClick w = Some id -> isLive id w = true).

(** A report with report id 1 and key code 0xE9 (volume up). *)
Definition pressReport : list Byte.byte := [Byte.x01; Byte.xe9].

(** The report the remote sends when the button comes up. *)
Definition releaseReport : list Byte.byte := [Byte.x01; Byte.x00].

End RemoteClicks.

(** ** Bluetooth remote: device connection and reconnection *)

Module RemoteLink.

Definition TimerId := nat.

(** An open device object, as [new HID.HID(path)] returns it. *)
Definition Handle := nat.

(** An entry of [HID.devices()]; [path] and [product] may be missing. *)
Module Device.
Record info := {
  vendorId : Z;
  productId : Z;
  usagePage : Z;
  usage : Z;
  path : option string;
  product : option string
}.
End Device.

Record Config := {
  vendorId : Z;
  productId : Z;
  usagePage : Z;
  usage : Z
}.

Definition CONFIG : Config := {|
  vendorId := 0x248a;
  productId := 0x8266;
  usagePage := 12;
  usage := 1
|}.

(** What node-hid does when asked: [HID.devices()] returns a list or
    throws, and [new HID.HID(path)] opens the device or throws. *)
Inductive Enumeration :=
| Enumerated (devices : list Device.info)
| EnumerationThrows.

Record Host := {
  enumeration : Enumeration;
  opens : bool
}.

(** The module variables [hidDevice], [reconnectTimer] and
    [isShuttingDown], the runtime's table of scheduled timers, and the
    counters that make timers and device objects distinct. *)
Record World := {
  hidDevice : option Handle;
  reconnectTimer : option TimerId;
  isShuttingDown : bool;
  timers : list TimerId;
  nextTimer : TimerId;
  nextHandle : Handle
}.

Definition world0 : World := {|
  hidDevice := None;
  reconnectTimer := None;
  isShuttingDown := false;
  timers := [];
  nextTimer := 0%nat;
  nextHandle := 0%nat
|}.

(** [ConsoleError] carries the text before the error value. *)
Inductive Effect :=
| ConsoleLog (msg : string)
| ConsoleError (msg : string)
| OpenDevice (path : string) (h : Handle)
| CloseDevice (h : Handle).

Definition L (A : Type) : Type := Prog World Effect A.

Definition set_hidDevice (d : option Handle) (w : World) : World :=
  {| hidDevice := d; reconnectTimer := reconnectTimer w;
     isShuttingDown := isShuttingDown w; timers := timers w;
     nextTimer := nextTimer w; nextHandle := nextHandle w |}.

Definition set_reconnectTimer (t : option TimerId) (w : World) : World :=
  {| hidDevice := hidDevice w; reconnectTimer := t;
     isShuttingDown := isShuttingDown w; timers := timers w;
     nextTimer := nextTimer w; nextHandle := nextHandle w |}.

Definition set_isShuttingDown (b : bool) (w : World) : World :=
  {| hidDevice := hidDevice w; reconnectTimer := reconnectTimer w;
     isShuttingDown := b; timers := timers w;
     nextTimer := nextTimer w; nextHandle := nextHandle w |}.

Definition isLive (id : TimerId) (w : World) : bool :=
  existsb (Nat.eqb id) (timers w).

(** [setTimeout(callback, 3000)] *)
Definition setTimeout : L TimerId :=
  fun w => (nextTimer w,
            {| hidDevice := hidDevice w; reconnectTimer := reconnectTimer w;
               isShuttingDown := isShuttingDown w;
               timers := timers w ++ [nextTimer w];
               nextTimer := S (nextTimer w); nextHandle := nextHandle w |},
            []).

(** [clearTimeout(id)] *)
Definition clearTimeout (id : TimerId) : L unit :=
  modifies (fun w =>
    {| hidDevice := hidDevice w; reconnectTimer := reconnectTimer w;
       isShuttingDown := isShuttingDown w;
       timers := List.filter (fun t => negb (Nat.eqb id t)) (timers w);
       nextTimer := nextTimer w; nextHandle := nextHandle w |}).

(** [new HID.HID(path)] when it does not throw; the data and error
    listeners are attached to the new object. *)
Definition openDevice (p : string) : L Handle :=
  fun w => (nextHandle w,
            {| hidDevice := hidDevice w; reconnectTimer := reconnectTimer w;
               isShuttingDown := isShuttingDown w; timers := timers w;
               nextTimer := nextTimer w; nextHandle := S (nextHandle w) |},
            [OpenDevice p (nextHandle w)]).

(** The predicate of [devices.find]. *)
Definition matchesConfig (d : Device.info) : bool :=
  (Device.vendorId d =? vendorId CONFIG)
  && (Device.productId d =? productId CONFIG)
  && (Device.usagePage d =? usagePage CONFIG)
  && (Device.usage d =? usage CONFIG).

(** [device?.path] when it is truthy: present and not the empty string. *)
Definition usablePath (d : option Device.info) : option string :=
  match d with
  | Some dev =>
      match Device.path dev with
      | Some p => if String.eqb p "" then None else Some p
      | None => None
      end
  | None => None
  end.

(** The text of a template literal slot holding [device.product]. *)
Definition productText (d : option Device.info) : string :=
  match d with
  | Some dev => default "undefined" (Device.product dev)
  | None => "undefined"
  end.

Definition initBluetoothRemote (host : Host) : L bool :=
  match enumeration host with
  | EnumerationThrows =>
      emit (ConsoleError "Failed to init Bluetooth remote:") ;;; ret false
  | Enumerated devices =>
      let device := List.find matchesConfig devices in
      match usablePath device with
      | None => emit (ConsoleLog "Bluetooth remote not found") ;;; ret false
      | Some p =>
          emit (ConsoleLog ("Found Bluetooth remote: " ++ productText device)%string) ;;;
          if opens host then
            h <- openDevice p ;;
            modifies (set_hidDevice (Some h)) ;;;
            ret true
          else
            emit (ConsoleError "Failed to init Bluetooth remote:") ;;; ret false
      end
  end.

(** [if (hidDevice) { try { hidDevice.close(); } catch {} hidDevice = null; }] *)
Definition closeDevice : L unit :=
  d <- gets hidDevice ;;
  match d with
  | Some h => emit (CloseDevice h) ;;; modifies (set_hidDevice None)
  | None => ret tt
  end.

(** [if (reconnectTimer) clearTimeout(reconnectTimer);] *)
Definition clearReconnectTimer : L unit :=
  t <- gets reconnectTimer ;;
  match t with
  | Some id => clearTimeout id
  | None => ret tt
  end.

Definition scheduleReconnect : L unit :=
  down <- gets isShuttingDown ;;
  if down then ret tt else
  closeDevice ;;;
  clearReconnectTimer ;;;
  emit (ConsoleLog "Bluetooth disconnected, reconnecting in 3s...") ;;;
  id <- setTimeout ;;
  modifies (set_reconnectTimer (Some id)).

(** The callback of the reconnect timer; [host] is what node-hid answers
    when it runs. *)
Definition reconnectCallback (host : Host) : L unit :=
  modifies (set_reconnectTimer None) ;;;
  down <- gets isShuttingDown ;;
  if down then ret tt else
  success <- initBluetoothRemote host ;;
  if success then ret tt else scheduleReconnect.

Definition cleanup : L unit :=
  modifies (set_isShuttingDown true) ;;;
  clearReconnectTimer ;;;
  closeDevice.

(** The error listener of the device. *)
Definition onError (message : string) : L unit :=
  emit (ConsoleError ("HID error: " ++ message)%string) ;;;
  scheduleReconnect.

(** The runtime fires timer [id]. *)
Definition fire (id : TimerId) (host : Host) : L unit :=
  live <- gets (isLive id) ;;
  if live then clearTimeout id ;;; reconnectCallback host else ret tt.

(** What can happen to the link. *)
Inductive Event :=
| Init (host : Host)
| DeviceError (message : string)
| TimerFires (id : TimerId) (host : Host)
| Cleanup.

Definition handle (ev : Event) : L unit :=
  match ev with
  | Init host => initBluetoothRemote host ;;; ret tt
  | DeviceError message => onError message
  | TimerFires id host => fire id host
  | Cleanup => cleanup
  end.

Fixpoint handleAll (evs : list Event) : L unit :=
  match evs with
  | [] => ret tt
  | ev :: rest => handle ev ;;; handleAll rest
  end.

Definition isInit (ev : Event) : bool :=
  match ev with
  | Init _ => true
  | _ => false
  end.

Definition isOpen (e : Effect) : bool :=
  match e with
  | OpenDevice _ _ => true
  | _ => false
  end.

Definition isRetryNotice (e : Effect) : bool :=
  match e with
  | ConsoleLog msg => String.eqb msg "Bluetooth disconnected, reconnecting in 3s..."
  | _ => false
  end.

(** Whether [initBluetoothRemote] can succeed against [host]. *)
Definition canConnect (host : Host) : bool :=
  match enumeration host with
  | Enumerated devices =>
      match usablePath (List.find matchesConfig devices) with
      | Some _ => opens host
      | None => false
      end
  | EnumerationThrows => false
  end.

(** The runtime fires whichever timer [reconnectTimer] names. *)
Definition firePending (host : Host) : L unit :=
  fun w =>
    match reconnectTimer w with
    | Some id => fire id host w
    | None => (tt, w, [])
    end.

(** One firing of the pending timer for each answer of node-hid in
    [hosts]. *)
Fixpoint retry (hosts : list Host) : L unit :=
  match hosts with
  | [] => ret tt
  | host :: rest => firePending host ;;; retry rest
  end.

(** What closing the current device emits. *)
Definition closing (w : World) : list Effect :=
  match hidDevice w with
  | Some h => [CloseDevice h]
  | None => []
  end.

(** The timer table once [reconnectTimer] has been cleared. *)
Definition remaining (w : World) : list TimerId :=
  match reconnectTimer w with
  | Some id => List.filter (fun t => negb (Nat.eqb id t)) (timers w)
  | None => timers w
  end.

(** At most one timer is scheduled, and it is the one [reconnectTimer]
    names. *)
Definition singleTimer (w : World) : Prop :=
  timers w = [] \/ exists id, timers w = [id] /\ reconnectTimer w = Some id.

(** A reconnection is pending: not shutting down, no device, one timer. *)
Definition awaitingRetry (w : World) : Prop :=
  isShuttingDown w = false /\
  hidDevice w = None /\
  exists id, timers w = [id] /\ reconnectTimer w = Some id.

(** The selfie-stick remote of the guide's scanner output, and a keyboard. *)
Definition sampleRemote : Device.info := {|
  Device.vendorId := 9354;
  Device.productId := 33382;
  Device.usagePage := 12;
  Device.usage := 1;
  Device.path := Some "IOService:/remote";
  Device.product := Some "Selfie"
|}.

Definition sampleKeyboard : Device.info := {|
  Device.vendorId := 1452;
  Device.productId := 832;
  Device.usagePage := 1;
  Device.usage := 6;
  Device.path := Some "IOService:/keyboard";
  Device.product := Some "Keyboard"
|}.

Definition remotePresent : Host :=
  {| enumeration := Enumerated [sampleKeyboard; sampleRemote]; opens := true |}.

Definition remoteAbsent : Host :=
  {| enumeration := Enumerated [sampleKeyboard]; opens := true |}.

(** A second interface of the remote that the system lists without a path. *)
Definition pathlessRemote : Device.info := {|
  Device.vendorId := 9354;
  Device.productId := 33382;
  Device.usagePage := 12;
  Device.usage := 1;
  Device.path := None;
  Device.product := Some "Selfie"
|}.

(** The link after the remote connected and then reported an error. *)
Definition disconnected : World :=
  exec (bind (initBluetoothRemote remotePresent) (fun _ => onError "disconnected"))
       world0.

End RemoteLink.

(** * Properties of the push-to-talk trigger *)

Module PushToTalkFacts.
Import PushToTalk.

Ltac run_handler :=
  unfold handleKeyDown, handleKeyUp, registerPushToTalk, unregisterPushToTalk,
    isDebounced, get, modify, Date_now, console_log, call_opt,
    set_isKeyHeld, set_lastKeyDownTime, set_lastKeyUpTime,
    set_recordingStartTime, set_callbacks,
    bind, gets, modifies, emit, ret, exec, effects, result, nextReading in *;
  cbn in *.

Ltac split_guards :=
  repeat match goal with
         | |- context [if ?b then _ else _] => destruct b eqn:?; cbn in *
         | |- context [match ?o with Some _ => _ | None => _ end] =>
             destruct o eqn:?; cbn in *
         end.

Section WithKey.

Variable AltRight : Z.

Local Abbreviation CONFIG := (CONFIG AltRight).
Local Abbreviation handleKeyDown := (handleKeyDown AltRight).
Local Abbreviation handleKeyUp := (handleKeyUp AltRight).
Local Abbreviation deliver := (deliver AltRight).
Local Abbreviation trace := (trace AltRight).

(** The four ways [handleKeyDown] can end. *)
Lemma handleKeyDown_cases (kc : Z) (w : World) :
  let t0 := nextReading w in
  handleKeyDown kc w =
    if negb (kc =? AltRight) then (tt, w, [])
    else if t0 - lastKeyDownTime (state w) <? 50 then
      (tt, {| state := state w; clock := clock w; reads := S (reads w) |}, [])
    else if isKeyHeld (state w) then
      (tt, {| state := state w; clock := clock w; reads := S (reads w) |}, [])
    else
      (tt,
       {| state := {| isKeyHeld := true;
                      lastKeyDownTime := clock w (S (reads w));
                      lastKeyUpTime := lastKeyUpTime (state w);
                      recordingStartTime := clock w (S (S (reads w)));
                      onStart := onStart (state w);
                      onStop := onStop (state w) |};
          clock := clock w;
          reads := S (S (S (reads w))) |},
       ConsoleLog "Push-to-talk: START" ::
         match onStart (state w) with
         | Some f => [InvokeOnStart f]
         | None => []
         end).
Proof.
  run_handler. split_guards; repeat f_equal; congruence.
Qed.

(** The five ways [handleKeyUp] can end. *)
Lemma handleKeyUp_cases (kc : Z) (w : World) :
  handleKeyUp kc w =
    if negb (kc =? AltRight) then (tt, w, [])
    else if negb (isKeyHeld (state w)) then (tt, w, [])
    else if nextReading w - lastKeyUpTime (state w) <? 50 then
      (tt, {| state := state w; clock := clock w; reads := S (reads w) |}, [])
    else if clock w (S (reads w)) - recordingStartTime (state w) <? 200 then
      (tt,
       {| state := set_isKeyHeld false (state w);
          clock := clock w;
          reads := S (S (reads w)) |},
       [ConsoleLog "Recording too short, ignoring"])
    else
      (tt,
       {| state := {| isKeyHeld := false;
                      lastKeyDownTime := lastKeyDownTime (state w);
                      lastKeyUpTime := clock w (S (S (reads w)));
                      recordingStartTime := recordingStartTime (state w);
                      onStart := onStart (state w);
                      onStop := onStop (state w) |};
          clock := clock w;
          reads := S (S (S (reads w))) |},
       ConsoleLog "Push-to-talk: STOP" ::
         match onStop (state w) with
         | Some f => [InvokeOnStop f]
         | None => []
         end).
Proof.
  run_handler. split_guards; repeat f_equal; congruence.
Qed.

(** A key-down while the key is held is ignored: nothing is emitted and the
    state object is left as it was. *)
Lemma handleKeyDown_while_held (kc : Z) (w : World) :
  isKeyHeld (state w) = true ->
  effects (handleKeyDown kc) w = [] /\
  state (exec (handleKeyDown kc) w) = state w.
Proof.
  intros Hheld. unfold effects, exec. rewrite handleKeyDown_cases. cbn.
  rewrite Hheld. split_guards; auto.
Qed.

(** A key-down inside the debounce window of the last accepted key-down is
    ignored. *)
Lemma handleKeyDown_debounced (kc : Z) (w : World) :
  nextReading w - lastKeyDownTime (state w) < debounceMs CONFIG ->
  effects (handleKeyDown kc) w = [] /\
  state (exec (handleKeyDown kc) w) = state w.
Proof.
  cbn. intros Hwin. unfold effects, exec. rewrite handleKeyDown_cases. cbn.
  apply Z.ltb_lt in Hwin. rewrite Hwin. split_guards; auto.
Qed.

(** A key-up inside the debounce window of the last accepted key-up is
    ignored. *)
Lemma handleKeyUp_debounced (kc : Z) (w : World) :
  nextReading w - lastKeyUpTime (state w) < debounceMs CONFIG ->
  effects (handleKeyUp kc) w = [] /\
  state (exec (handleKeyUp kc) w) = state w.
Proof.
  cbn. intros Hwin. unfold effects, exec. rewrite handleKeyUp_cases. cbn.
  apply Z.ltb_lt in Hwin. rewrite Hwin. split_guards; auto.
Qed.

(** A step that invokes the start callback finds the key not held and
    leaves it held. *)
Lemma start_sets_held (ev : RawEvent) (w : World) (f : callback) :
  In (InvokeOnStart f) (effects (deliver ev) w) ->
  isKeyHeld (state w) = false /\
  isKeyHeld (state (exec (deliver ev) w)) = true.
Proof.
  destruct ev as [kc | kc]; unfold effects, exec, deliver.
  - rewrite handleKeyDown_cases. cbn. split_guards; cbn; intuition congruence.
  - rewrite handleKeyUp_cases. cbn. split_guards; cbn; intuition congruence.
Qed.

(** Only a key-up clears the held flag. *)
Lemma held_cleared_by_key_up (ev : RawEvent) (w : World) :
  isKeyHeld (state w) = true ->
  isKeyHeld (state (exec (deliver ev) w)) = false ->
  exists k, ev = KeyUp k.
Proof.
  destruct ev as [kc | kc]; [| eauto].
  intros Hheld Hclr. destruct (handleKeyDown_while_held kc w Hheld) as [_ Hst].
  cbn in Hclr. rewrite Hst in Hclr. congruence.
Qed.

(** From a world in which the key is held, a step that finds it not held is
    preceded by a key-up that cleared the flag. *)
Lemma held_until_released (evs : list RawEvent) :
  forall (w : World) (j : nat) (sj : Step),
    isKeyHeld (state w) = true ->
    trace evs w !! j = Some sj ->
    isKeyHeld (state (before sj)) = false ->
    exists k sk, (k < j)%nat /\ trace evs w !! k = Some sk /\
                 releasesHeld sk.
Proof.
  induction evs as [| ev rest IH]; intros w j sj Hheld Hj Hsj; [discriminate |].
  destruct j as [| j]; cbn in Hj.
  - injection Hj as <-. cbn in Hsj. congruence.
  - destruct (isKeyHeld (state (exec (deliver ev) w))) eqn:Hafter.
    + destruct (IH _ _ _ Hafter Hj Hsj) as (k & sk & Hk & Hlk & Hrel).
      exists (S k), sk. repeat split; try apply Hrel; [lia | exact Hlk].
    + exists 0%nat. eexists. split; [lia |]. split; [reflexivity |].
      split; [| split]; cbn; auto.
      exact (held_cleared_by_key_up ev w Hheld Hafter).
Qed.


(** C2.  In the run of any sequence of raw key events from any world, two
    steps that both invoke the start callback are separated by a key-up step
    that cleared the held flag: an engagement that arrives while the key is
    held is ignored, so a second start never fires without the held state
    having been released in between. *)
Theorem C2_no_second_start_while_held
    (evs : list RawEvent) (w : World) (i j : nat) (si sj : Step) :
  trace evs w !! i = Some si ->
  trace evs w !! j = Some sj ->
  (i < j)%nat ->
  firesStart si ->
  firesStart sj ->
  exists k sk, (i < k < j)%nat /\ trace evs w !! k = Some sk /\
               releasesHeld sk.
Proof.
  revert w i j. induction evs as [| ev rest IH]; intros w i j Hi Hj Hlt Hsi Hsj;
    [discriminate |].
  destruct j as [| j]; [lia |]. cbn in Hj.
  destruct i as [| i]; cbn in Hi.
  - injection Hi as <-. destruct Hsi as [f Hf]. cbn in Hf.
    apply start_sets_held in Hf as [_ Hafter].
    assert (Hbefore : isKeyHeld (state (before sj)) = false).
    { destruct Hsj as [g Hg].
      assert (Hshape : forall n, trace rest (exec (deliver ev) w) !! n
                                 = Some sj ->
                isKeyHeld (state (before sj)) = false).
      { clear - Hg. generalize (exec (deliver ev) w).
        induction rest as [| ev' rest' IH']; intros w' n Hn; [discriminate |].
        destruct n as [| n]; cbn in Hn.
        - injection Hn as <-. cbn in *. now apply start_sets_held in Hg.
        - eauto. }
      eauto. }
    destruct (held_until_released rest _ _ _ Hafter Hj Hbefore)
      as (k & sk & Hk & Hlk & Hrel).
    exists (S k), sk. split; [lia |]. split; [exact Hlk | exact Hrel].
  - destruct (IH _ i j Hi Hj ltac:(lia) Hsi Hsj) as (k & sk & Hk & Hlk & Hrel).
    exists (S k), sk. split; [lia |]. split; [exact Hlk | exact Hrel].
Qed.

(** C3.  When the same raw signal (key-down or key-up, any key code) is
    delivered twice and the second delivery reads the clock within
    [debounceMs] (50 ms) of the first, the two deliveries invoke at most one
    callback between them; and when the first delivery invoked a callback,
    the pair invokes exactly one, the second delivery emits nothing and
    leaves the state object unchanged.  More generally, in any world a
    signal that reads the clock within [debounceMs] of the time recorded for
    the last accepted signal of its kind emits nothing and leaves the state
    object unchanged. *)
Theorem C3_replay_within_window_collapses (ev : RawEvent) (w w' : World) :
  let w1 := exec (deliver ev) w in
  let w2 := exec (deliver ev) w1 in
  let e1 := effects (deliver ev) w in
  let e2 := effects (deliver ev) w1 in
  nextReading w1 - nextReading w < debounceMs CONFIG ->
  nextReading w' - lastAccepted ev (state w') < debounceMs CONFIG ->
  (length (callbacks (e1 ++ e2)) <= 1)%nat /\
  (callbacks e1 <> [] ->
   length (callbacks (e1 ++ e2)) = 1%nat /\ e2 = [] /\ state w2 = state w1) /\
  effects (deliver ev) w' = [] /\
  state (exec (deliver ev) w') = state w'.
Proof.
  cbn zeta. intros _ Hwin.
  assert (Hpair :
    (length (callbacks (effects (deliver ev) w
                        ++ effects (deliver ev) (exec (deliver ev) w))) <= 1)%nat /\
    (callbacks (effects (deliver ev) w) <> [] ->
     length (callbacks (effects (deliver ev) w
                        ++ effects (deliver ev) (exec (deliver ev) w))) = 1%nat /\
     effects (deliver ev) (exec (deliver ev) w) = [] /\
     state (exec (deliver ev) (exec (deliver ev) w)) = state (exec (deliver ev) w))).
  { clear Hwin. unfold effects, exec.
    destruct ev as [kc | kc]; unfold PushToTalk.deliver.
    - rewrite (handleKeyDown_cases kc w). cbn.
      split_guards; rewrite handleKeyDown_cases; cbn;
        repeat match goal with H : _ = _ |- _ => rewrite H end; cbn;
        split_guards; (split; [lia | intros; try congruence; auto]).
    - rewrite (handleKeyUp_cases kc w). cbn.
      split_guards; rewrite handleKeyUp_cases; cbn;
        repeat match goal with H : _ = _ |- _ => rewrite H end; cbn;
        split_guards; (split; [lia | intros; try congruence; auto]). }
  destruct Hpair as [Hle Hone]. split; [exact Hle |]. split; [exact Hone |].
  destruct ev as [kc | kc]; cbn [PushToTalk.deliver lastAccepted] in *.
  - exact (handleKeyDown_debounced kc w' Hwin).
  - exact (handleKeyUp_debounced kc w' Hwin).
Qed.

(** C9.  A key event whose key code is not the configured push-to-talk key
    is dropped by both handlers: the world (state object and clock position)
    is unchanged, nothing is logged and no callback is invoked. *)
Theorem C9_unknown_key_dropped (kc : Z) (w : World) :
  kc <> pushToTalkKey CONFIG ->
  handleKeyDown kc w = (tt, w, []) /\
  handleKeyUp kc w = (tt, w, []).
Proof.
  cbn. intros Hne. apply Z.eqb_neq in Hne.
  rewrite handleKeyDown_cases, handleKeyUp_cases. cbn. now rewrite Hne.
Qed.

End WithKey.

Ltac by_evaluation :=
  vm_compute; first [reflexivity | discriminate | intro; discriminate | lia].



(** A full press, a release after the minimum hold, and a second press. *)
Lemma C2_no_second_start_witness :
  let evs := [KeyDown sampleKey; KeyUp sampleKey; KeyDown sampleKey] in
  let w := worldAt (everyMs 1000) in
  exists k sk, (0 < k < 2)%nat /\ trace sampleKey evs w !! k = Some sk /\
               releasesHeld sk.
Proof.
  cbn zeta.
  eapply (C2_no_second_start_while_held sampleKey _ _ 0 2).
  - reflexivity.
  - reflexivity.
  - lia.
  - exists 1%nat. vm_compute. auto.
  - exists 1%nat. vm_compute. auto.
Defined.

(** Right Alt reported down twice, 30 ms apart; the second report comes
    20 ms after the time recorded for the first. *)
Lemma C3_replay_witness :
  let ev := KeyDown sampleKey in
  let w := worldAt (everyMs 10) in
  let w1 := exec (deliver sampleKey ev) w in
  let w2 := exec (deliver sampleKey ev) w1 in
  let e1 := effects (deliver sampleKey ev) w in
  let e2 := effects (deliver sampleKey ev) w1 in
  nextReading w1 - nextReading w = 30 /\
  nextReading w1 - lastAccepted ev (state w1) = 20 /\
  e1 = [ConsoleLog "Push-to-talk: START"; InvokeOnStart 1%nat] /\
  (length (callbacks (e1 ++ e2)) <= 1)%nat /\
  (length (callbacks (e1 ++ e2)) = 1%nat /\ e2 = [] /\ state w2 = state w1) /\
  e2 = [] /\
  state w2 = state w1.
Proof.
  cbn zeta. do 3 (split; [by_evaluation |]).
  destruct (C3_replay_within_window_collapses sampleKey (KeyDown sampleKey)
              (worldAt (everyMs 10))
              (exec (deliver sampleKey (KeyDown sampleKey)) (worldAt (everyMs 10))))
    as (Hle & Hone & Hguard); [by_evaluation | by_evaluation |].
  split; [exact Hle |]. split; [apply Hone; by_evaluation | exact Hguard].
Defined.

(** The space bar (key code 57) against a right-Alt configuration. *)
Lemma C9_unknown_key_witness :
  let w := worldAt (everyMs 10) in
  57 <> pushToTalkKey (CONFIG sampleKey) /\
  handleKeyDown sampleKey 57 w = (tt, w, []) /\
  handleKeyUp sampleKey 57 w = (tt, w, []).
Proof.
  cbn zeta. split; [by_evaluation |].
  apply (C9_unknown_key_dropped sampleKey 57). by_evaluation.
Defined.

End PushToTalkFacts.

(** * Properties of the floating window manager *)

Module FloatingWindowFacts.
Import FloatingWindow.

Ltac run_wm :=
  unfold sendStatus, setContentHeight, show, hide, create, resetHeightSync,
    clearPreviousContent, window_showInactive, window_hide, perform,
    isVisible, set_window, set_currentHeight, set_visible, set_bounds,
    bind, gets, modifies, emit, ret, exec, effects, result in *;
  cbn in *.

Section WithLayout.

Variables MIN_HEIGHT MAX_HEIGHT CHROME_HEIGHT DEBOUNCE_THRESHOLD : Z.
Variables BOTTOM_OFFSET WIDTH screenHeight : Z.
Variable initialBounds : Rectangle.

Local Abbreviation show := (show MIN_HEIGHT initialBounds).
Local Abbreviation hide := (hide MIN_HEIGHT).
Local Abbreviation perform := (perform MIN_HEIGHT initialBounds).
Local Abbreviation performAll := (performAll MIN_HEIGHT initialBounds).
Local Abbreviation edges := (edges MIN_HEIGHT initialBounds).
Local Abbreviation sendStatus := (sendStatus MIN_HEIGHT initialBounds).
Local Abbreviation setContentHeight :=
  (setContentHeight MAX_HEIGHT CHROME_HEIGHT DEBOUNCE_THRESHOLD BOTTOM_OFFSET
     WIDTH screenHeight).
Local Abbreviation accepted :=
  (accepted MAX_HEIGHT CHROME_HEIGHT DEBOUNCE_THRESHOLD BOTTOM_OFFSET WIDTH
     screenHeight).

(** [show] on a window that is not visible: setup, then reveal. *)
Lemma show_when_hidden (wm : WindowManager) :
  isVisible wm = false ->
  exists win,
    exec show wm = {| window := Some {| visible := true; bounds := bounds win |};
                      currentHeight := MIN_HEIGHT |} /\
    List.filter isSetup (effects show wm) = [ResetHeightSync] /\
    List.filter isClear (effects show wm) = [ClearPreviousContent].
Proof.
  destruct wm as [[[v b] |] h]; run_wm; intros Hv; subst.
  - exists {| visible := false; bounds := b |}. auto.
  - exists {| visible := false; bounds := initialBounds |}. auto.
Qed.

(** [show] on a visible window changes nothing and runs no setup. *)
Lemma show_when_visible (wm : WindowManager) :
  isVisible wm = true ->
  show wm = (tt, wm, [WindowShowInactive]).
Proof.
  destruct wm as [[[v b] |] h]; run_wm; intros Hv; subst; [reflexivity | discriminate].
Qed.

Lemma show_makes_visible (wm : WindowManager) : isVisible (exec show wm) = true.
Proof.
  destruct wm as [[[[] b] |] h]; reflexivity.
Qed.

Lemma hide_makes_hidden (wm : WindowManager) :
  isVisible (exec hide wm) = false /\
  List.filter isSetup (effects hide wm) = [] /\
  List.filter isClear (effects hide wm) = [].
Proof.
  destruct wm as [[[v b] |] h]; run_wm; auto.
Qed.

Lemma effects_bind {St Ev A B} (m : Prog St Ev A) (k : A -> Prog St Ev B) (s : St) :
  effects (bind m k) s = effects m s ++ effects (k (result m s)) (exec m s).
Proof.
  unfold effects, bind, result, exec.
  destruct (m s) as [[a s1] e1]. cbn. destruct (k a s1) as [[b s2] e2]. reflexivity.
Qed.

Lemma exec_bind {St Ev A B} (m : Prog St Ev A) (k : A -> Prog St Ev B) (s : St) :
  exec (bind m k) s = exec (k (result m s)) (exec m s).
Proof.
  unfold effects, bind, result, exec.
  destruct (m s) as [[a s1] e1]. cbn. destruct (k a s1) as [[b s2] e2]. reflexivity.
Qed.

(** Each call runs the setup once if it crosses the hidden-to-visible edge
    and not at all otherwise. *)
Lemma perform_setups (o : Op) (wm : WindowManager) :
  let crossed := if negb (isVisible wm) && isVisible (exec (perform o) wm)
                 then 1%nat else 0%nat in
  setups (effects (perform o) wm) = crossed /\
  clears (effects (perform o) wm) = crossed.
Proof.
  cbn zeta. unfold setups, clears. destruct o; cbn [FloatingWindow.perform].
  - rewrite show_makes_visible, andb_true_r.
    destruct (isVisible wm) eqn:Hv.
    + unfold effects. rewrite (show_when_visible wm Hv). auto.
    + destruct (show_when_hidden wm Hv) as (win & _ & -> & ->). auto.
  - destruct (hide_makes_hidden wm) as (-> & -> & ->).
    rewrite andb_false_r. auto.
Qed.

(** C5.  [sendStatus] with status idle hides the window and returns: its
    only effect is the window's [hide] (nothing at all when no window
    exists), after it the window is not visible, and nothing is forwarded to
    the renderer.  For every status and every manager state, no call of
    [sendStatus] forwards an idle notification. *)
Theorem C5_idle_hides_and_never_notifies (status : string) (wm : WindowManager) :
  sendStatus "idle" wm =
    (Returned, exec hide wm,
     match window wm with
     | Some _ => [WindowHide]
     | None => []
     end) /\
  isVisible (exec (sendStatus "idle") wm) = false /\
  existsb isSend (effects (sendStatus "idle") wm) = false /\
  existsb (sendsStatus "idle") (effects (sendStatus status) wm) = false.
Proof.
  repeat split.
  - destruct wm as [[[v b] |] h]; reflexivity.
  - destruct wm as [[[v b] |] h]; reflexivity.
  - destruct wm as [[[v b] |] h]; reflexivity.
  - unfold FloatingWindow.sendStatus, includes. cbn [existsb].
    destruct (String.eqb_spec status "connecting") as [-> | _];
      [destruct wm as [[[[] b] |] h]; reflexivity |].
    destruct (String.eqb_spec status "listening") as [-> | _];
      [destruct wm as [[[[] b] |] h]; reflexivity |].
    destruct (String.eqb_spec status "processing") as [-> | _];
      [destruct wm as [[[[] b] |] h]; reflexivity |].
    cbn [orb]. destruct (String.eqb status "idle") eqn:Hidle.
    + destruct wm as [[[v b] |] h]; reflexivity.
    + destruct wm as [[[v b] |] h]; run_wm; [| reflexivity].
      now rewrite Hidle.
Qed.

(** C6.  Over any sequence of [show] and [hide] calls from any manager
    state, the first-time setup (resetting the stored height and clearing
    the previous content) runs exactly as many times as the window goes from
    hidden to visible.  In particular [n + 1] calls of [show] in a row run
    it once when the window starts hidden and never when it starts visible,
    and once the window is visible further calls of [show] leave the manager
    unchanged. *)
Theorem C6_setup_once_per_edge (ops : list Op) (n : nat) (wm : WindowManager) :
  setups (effects (performAll ops) wm) = edges ops wm /\
  clears (effects (performAll ops) wm) = edges ops wm /\
  setups (effects (performAll (repeat Show (S n))) wm)
    = (if isVisible wm then 0 else 1)%nat /\
  exec (performAll (repeat Show n)) (exec show wm) = exec show wm.
Proof.
  assert (Hedges : forall ops wm,
             setups (effects (performAll ops) wm) = edges ops wm /\
             clears (effects (performAll ops) wm) = edges ops wm).
  { clear. intros ops. induction ops as [| o rest IH]; intros wm; [split; reflexivity |].
    cbn [FloatingWindow.performAll FloatingWindow.edges].
    rewrite effects_bind. unfold setups, clears in *.
    rewrite !List.filter_app, !length_app.
    destruct (perform_setups o wm) as [Hs Hc]. unfold setups, clears in Hs, Hc.
    rewrite Hs, Hc. destruct (IH (exec (perform o) wm)) as [-> ->]. auto. }
  assert (Hstay : forall n wm, isVisible wm = true ->
             exec (performAll (repeat Show n)) wm = wm /\
             edges (repeat Show n) wm = 0%nat).
  { clear. intros n. induction n as [| n IH]; intros wm Hv; [split; reflexivity |].
    cbn [repeat FloatingWindow.performAll FloatingWindow.edges].
    rewrite exec_bind. cbn [FloatingWindow.perform].
    assert (Hsame : exec show wm = wm)
      by (unfold exec; now rewrite (show_when_visible wm Hv)).
    rewrite Hsame, Hv. cbn. apply (IH wm Hv). }
  destruct (Hedges ops wm) as [Hs Hc].
  repeat split; [exact Hs | exact Hc | |].
  - destruct (Hedges (repeat Show (S n)) wm) as [-> _].
    cbn [repeat FloatingWindow.edges FloatingWindow.perform].
    rewrite show_makes_visible.
    destruct (Hstay n (exec show wm) (show_makes_visible wm)) as [_ ->].
    destruct (isVisible wm); reflexivity.
  - apply (Hstay n (exec show wm) (show_makes_visible wm)).
Qed.

(** What [setContentHeight] does when a window exists: nothing below the
    threshold, one [setBounds] at or above it. *)
Lemma setContentHeight_cases (contentHeight : Z) (wm : WindowManager)
    (win : BrowserWindow) :
  window wm = Some win ->
  let targetHeight := Z.min (CHROME_HEIGHT + contentHeight) MAX_HEIGHT in
  let r := {| x := x (bounds win);
              y := screenHeight - targetHeight - BOTTOM_OFFSET;
              width := WIDTH;
              height := targetHeight |} in
  setContentHeight contentHeight wm =
    if Z.abs (targetHeight - currentHeight wm) <? DEBOUNCE_THRESHOLD
    then (Returned, wm, [])
    else (Returned,
          {| window := Some {| visible := visible win; bounds := r |};
             currentHeight := targetHeight |},
          [WindowSetBounds r]).
Proof.
  intros Hwin. destruct wm as [w h]. cbn in Hwin. subst w. run_wm.
  destruct (_ <? _); reflexivity.
Qed.

(** C7, as amended.  For a manager that has a window, a requested content
    height is accepted (a bounds change is applied) if and only if the
    target height [min (CHROME_HEIGHT + contentHeight) MAX_HEIGHT] differs
    from the last applied height by at least the debounce threshold;
    differences smaller than the threshold leave the manager untouched.  An
    accepted request applies exactly one bounds change whose height is the
    target height, which is at most [MAX_HEIGHT], and records it as the last
    applied height. *)
Theorem C7_accepted_iff_at_least_threshold (contentHeight : Z)
    (wm : WindowManager) (win : BrowserWindow) :
  window wm = Some win ->
  let targetHeight := Z.min (CHROME_HEIGHT + contentHeight) MAX_HEIGHT in
  (accepted contentHeight wm <->
   DEBOUNCE_THRESHOLD <= Z.abs (targetHeight - currentHeight wm)) /\
  (accepted contentHeight wm ->
   exists r,
     effects (setContentHeight contentHeight) wm = [WindowSetBounds r] /\
     height r = targetHeight /\
     height r <= MAX_HEIGHT /\
     currentHeight (exec (setContentHeight contentHeight) wm) = targetHeight) /\
  (~ accepted contentHeight wm ->
   setContentHeight contentHeight wm = (Returned, wm, [])).
Proof.
  intros Hwin. cbn zeta. unfold FloatingWindow.accepted, effects, exec.
  rewrite (setContentHeight_cases contentHeight wm win Hwin). cbn zeta.
  destruct (Z.ltb_spec (Z.abs (Z.min (CHROME_HEIGHT + contentHeight) MAX_HEIGHT
                               - currentHeight wm)) DEBOUNCE_THRESHOLD) as [Hlt | Hge];
    cbn.
  - repeat split; try (intros; discriminate); try lia.
  - repeat split; auto; try tauto.
    intros _. eexists. repeat split. cbn. lia.
Qed.

(** C8.  An accepted height change puts the window's bottom edge (vertical
    origin plus height) at [screenHeight - BOTTOM_OFFSET], whatever the new
    height, and keeps its horizontal origin.  For a window that is anchored
    there, the bottom edge is therefore the same before and after the change
    and the origin moves up by exactly the amount the height grows. *)
Theorem C8_bottom_edge_fixed (contentHeight : Z)
    (wm : WindowManager) (win win' : BrowserWindow) :
  window wm = Some win ->
  accepted contentHeight wm ->
  window (exec (setContentHeight contentHeight) wm) = Some win' ->
  bottomEdge (bounds win') = screenHeight - BOTTOM_OFFSET /\
  x (bounds win') = x (bounds win) /\
  (bottomEdge (bounds win) = screenHeight - BOTTOM_OFFSET ->
   bottomEdge (bounds win') = bottomEdge (bounds win) /\
   y (bounds win) - y (bounds win')
     = height (bounds win') - height (bounds win)).
Proof.
  intros Hwin. unfold FloatingWindow.accepted, effects, exec, bottomEdge.
  rewrite (setContentHeight_cases contentHeight wm win Hwin). cbn zeta.
  destruct (_ <? _); cbn; [discriminate |].
  intros _ Hwin'. injection Hwin' as <-. cbn. repeat split; lia.
Qed.

End WithLayout.

(** C7 as stated fails.  With a threshold of 4 px and a last applied height
    of 100 px, a content height of 64 px gives a target of 104 px: the
    difference is 4 px, which is not more than the threshold, and the bounds
    change is applied all the same.  With a minimum height of 60 px and
    40 px of chrome, an empty content is accepted at 40 px, below the
    minimum. *)
Lemma C7_counterexample_boundary_and_floor :
  let MIN_HEIGHT := 60 in
  let DEBOUNCE_THRESHOLD := 4 in
  (~ DEBOUNCE_THRESHOLD < Z.abs (Z.min (40 + 64) 400 - currentHeight sampleManager) /\
   accepted 400 40 DEBOUNCE_THRESHOLD 80 400 1080 64 sampleManager /\
   effects (sampleSetContentHeight 64) sampleManager
     = [WindowSetBounds {| x := 760; y := 896; width := 400; height := 104 |}]) /\
  (effects (sampleSetContentHeight 0) sampleManager
     = [WindowSetBounds {| x := 760; y := 960; width := 400; height := 40 |}] /\
   ~ MIN_HEIGHT <= 40).
Proof.
  cbn zeta. repeat split; try reflexivity; cbn; lia.
Qed.

(** A content height of 64 px against a last applied height of 100 px. *)
Lemma C7_accepted_witness :
  exists r,
    effects (sampleSetContentHeight 64) sampleManager = [WindowSetBounds r] /\
    height r = Z.min (40 + 64) 400 /\
    height r <= 400 /\
    currentHeight (exec (sampleSetContentHeight 64) sampleManager)
      = Z.min (40 + 64) 400.
Proof.
  destruct (C7_accepted_iff_at_least_threshold 400 40 4 80 400 1080 64
              sampleManager {| visible := true; bounds := sampleBounds |}
              eq_refl) as (Hiff & Hacc & _).
  apply Hacc. apply Hiff. cbn. lia.
Defined.

(** The same request on the sample window, whose bottom edge is at 1000. *)
Lemma C8_bottom_edge_witness :
  let win := {| visible := true; bounds := sampleBounds |} in
  let win' := {| visible := true;
                 bounds := {| x := 760; y := 896; width := 400; height := 104 |} |} in
  bottomEdge (bounds win') = bottomEdge (bounds win) /\
  y (bounds win) - y (bounds win') = height (bounds win') - height (bounds win).
Proof.
  cbn zeta.
  refine (proj2 (proj2 (C8_bottom_edge_fixed 400 40 4 80 400 1080 64
                          sampleManager _ _ eq_refl eq_refl eq_refl)) eq_refl).
Defined.

End FloatingWindowFacts.

(** * Properties of the shared status type *)

Module SharedFacts.
Import Shared.

(** C4 as stated fails: the union has no member named finalizing, so the
    documented list of six names is not the list of the type's members. *)
Lemma C4_counterexample_no_finalizing :
  In "finalizing" documented_status_names /\
  isASRStatus "finalizing" = false /\
  (forall s : ASRStatus, ASRStatus_name s <> "finalizing") /\
  map ASRStatus_name ASRStatus_values <> documented_status_names.
Proof.
  repeat split.
  - cbn. tauto.
  - intros s; destruct s; discriminate.
  - discriminate.
Qed.

(** C4, as amended.  [ASRStatus] has exactly six members, named idle,
    connecting, listening, processing, done and error, with pairwise
    different names; the member declared between listening and done is named
    processing. *)
Theorem C4_six_statuses_with_processing (s : ASRStatus) :
  In s ASRStatus_values /\
  length ASRStatus_values = 6%nat /\
  List.NoDup (map ASRStatus_name ASRStatus_values) /\
  map ASRStatus_name ASRStatus_values
    = ["idle"; "connecting"; "listening"; "processing"; "done"; "error"] /\
  nth_error ASRStatus_values (ASRStatus_index s) = Some s /\
  (ASRStatus_index listening < ASRStatus_index processing
   < ASRStatus_index done)%nat /\
  isASRStatus (ASRStatus_name s) = true.
Proof.
  split; [destruct s; cbn; tauto |].
  split; [reflexivity |].
  split; [cbn; repeat (apply List.NoDup_cons; [cbn; intuition discriminate |]);
          apply List.NoDup_nil |].
  split; [reflexivity |].
  split; [destruct s; reflexivity |].
  split; [cbn; lia |].
  destruct s; reflexivity.
Qed.

End SharedFacts.

(** * Properties of the ASR IPC handlers *)

Module AsrIpcFacts.
Import AsrIpc.

(** After a successful setup the two channels hold the stub handlers. *)
Lemma setupASRHandlers_registers (ipc ipc' : IpcMain) :
  setupASRHandlers ipc = Some ipc' ->
  invokeHandlers ipc' !! "asr:start" = Some startHandler /\
  invokeHandlers ipc' !! "asr:stop" = Some stopHandler.
Proof.
  unfold setupASRHandlers, ipcMain_handle, ipcMain_on. cbn.
  destruct (invokeHandlers ipc !! "asr:start") eqn:Hstart; [discriminate |]. cbn.
  rewrite lookup_insert_ne by discriminate.
  destruct (invokeHandlers ipc !! "asr:stop") eqn:Hstop; [discriminate |]. cbn.
  intros [= <-]. cbn.
  rewrite lookup_insert_ne by discriminate.
  rewrite !lookup_insert_eq. auto.
Qed.

(** Setup succeeds exactly when neither channel has a handler yet. *)
Lemma setupASRHandlers_succeeds (ipc : IpcMain) :
  invokeHandlers ipc !! "asr:start" = None ->
  invokeHandlers ipc !! "asr:stop" = None ->
  exists ipc', setupASRHandlers ipc = Some ipc'.
Proof.
  intros Hstart Hstop. unfold setupASRHandlers, ipcMain_handle. cbn.
  rewrite Hstart. cbn. rewrite lookup_insert_ne by discriminate.
  rewrite Hstop. cbn. eauto.
Qed.

(** C10.  Once [setupASRHandlers] has registered the handlers, invoking
    asr:start with any arguments (any config, or none) resolves to
    [{success: true}] and performs no effect; so does invoking asr:stop.
    Neither call rejects. *)
Theorem C10_start_stop_always_succeed (ipc ipc' : IpcMain) (args : list JSValue) :
  setupASRHandlers ipc = Some ipc' ->
  ipcInvoke ipc' (START IPC_CHANNELS_ASR) args = (Resolved {| success := true |}, []) /\
  ipcInvoke ipc' (STOP IPC_CHANNELS_ASR) args = (Resolved {| success := true |}, []).
Proof.
  intros Hsetup. destruct (setupASRHandlers_registers ipc ipc' Hsetup) as [Hstart Hstop].
  unfold ipcInvoke, IPC_CHANNELS_ASR, InvokeHandler in *. cbn [START STOP].
  rewrite Hstart, Hstop. split; reflexivity.
Qed.

(** Setup on a fresh [ipcMain], then asr:start with a partial config. *)
Lemma C10_start_stop_witness :
  exists ipc',
    setupASRHandlers emptyIpcMain = Some ipc' /\
    ipcInvoke ipc' "asr:start" [JSObject [Field "appId" (JSString "demo")]]
      = (Resolved {| success := true |}, []) /\
    ipcInvoke ipc' "asr:stop" [JSObject [Field "appId" (JSString "demo")]]
      = (Resolved {| success := true |}, []).
Proof.
  destruct (setupASRHandlers_succeeds emptyIpcMain eq_refl eq_refl) as [ipc' Hsetup].
  exists ipc'. split; [exact Hsetup |].
  exact (C10_start_stop_always_succeed emptyIpcMain ipc' _ Hsetup).
Defined.

End AsrIpcFacts.

(** * Properties of runs of the push-to-talk trigger *)

Module PushToTalkRunFacts.
Import PushToTalk PushToTalkRuns PushToTalkFacts.

Section WithKey.

Variable AltRight : Z.

Local Abbreviation CONFIG := (CONFIG AltRight).
Local Abbreviation handleKeyDown := (handleKeyDown AltRight).
Local Abbreviation handleKeyUp := (handleKeyUp AltRight).
Local Abbreviation deliver := (deliver AltRight).
Local Abbreviation trace := (trace AltRight).
Local Abbreviation run := (run AltRight).
Local Abbreviation allEffects := (allEffects AltRight).

Lemma run_cons (ev : RawEvent) (evs : list RawEvent) (w : World) :
  run (ev :: evs) w = run evs (exec (deliver ev) w).
Proof. reflexivity. Qed.

Lemma allEffects_cons (ev : RawEvent) (evs : list RawEvent) (w : World) :
  allEffects (ev :: evs) w
  = effects (deliver ev) w ++ allEffects evs (exec (deliver ev) w).
Proof. reflexivity. Qed.

(** One delivery keeps the clock and the registered callbacks, never moves
    the clock position back, and invokes registered callbacks only. *)
Lemma deliver_frame (ev : RawEvent) (w : World) :
  let w' := exec (deliver ev) w in
  clock w' = clock w /\
  (reads w <= reads w')%nat /\
  onStart (state w') = onStart (state w) /\
  onStop (state w') = onStop (state w) /\
  forallb (registeredCall (state w)) (effects (deliver ev) w) = true.
Proof.
  cbn zeta. unfold effects, exec.
  destruct ev as [kc | kc]; unfold PushToTalk.deliver.
  - rewrite handleKeyDown_cases. cbn.
    split_guards; cbn; repeat split; auto; try lia;
      repeat match goal with H : _ = Some _ |- _ => rewrite H end; cbn;
      now rewrite ?Nat.eqb_refl.
  - rewrite handleKeyUp_cases. cbn.
    split_guards; cbn; repeat split; auto; try lia;
      repeat match goal with H : _ = Some _ |- _ => rewrite H end; cbn;
      now rewrite ?Nat.eqb_refl.
Qed.

Lemma registeredCall_ext (s1 s2 : State) (e : Effect) :
  onStart s1 = onStart s2 -> onStop s1 = onStop s2 ->
  registeredCall s1 e = registeredCall s2 e.
Proof.
  intros H1 H2. destruct e; cbn; congruence.
Qed.

Lemma run_registered (evs : list RawEvent) :
  forall w : World,
    onStart (state (run evs w)) = onStart (state w) /\
    onStop (state (run evs w)) = onStop (state w) /\
    forallb (registeredCall (state w)) (allEffects evs w) = true.
Proof.
  induction evs as [| ev rest IH]; intros w; [repeat split; reflexivity |].
  rewrite run_cons, allEffects_cons.
  destruct (deliver_frame ev w) as (_ & _ & Hs & Hp & Hcall).
  destruct (IH (exec (deliver ev) w)) as (IHs & IHp & IHcall).
  split; [congruence |]. split; [congruence |].
  rewrite forallb_app, Hcall. cbn.
  rewrite <- IHcall. clear IHcall.
  induction (allEffects rest (exec (deliver ev) w)) as [| e es IHes]; [reflexivity |].
  cbn. rewrite IHes. f_equal. symmetry. now apply registeredCall_ext.
Qed.

(** X1.  Whatever raw signals arrive, the handlers never change the
    registered callbacks, and every callback they invoke is the one that
    is registered: the start callback through [onStart], the stop callback
    through [onStop]. *)
Theorem handlers_invoke_registered_callbacks_only
    (evs : list RawEvent) (w : World) :
  onStart (state (run evs w)) = onStart (state w) /\
  onStop (state (run evs w)) = onStop (state w) /\
  forallb (registeredCall (state w)) (allEffects evs w) = true.
Proof.
  apply run_registered.
Qed.

(** X2.  After [unregisterPushToTalk], no sequence of raw signals invokes a
    callback, and the key is not considered held to begin with. *)
Theorem unregistered_trigger_is_silent (evs : list RawEvent) (w : World) :
  let w0 := exec unregisterPushToTalk w in
  isKeyHeld (state w0) = false /\
  callbacks (allEffects evs w0) = [].
Proof.
  cbn zeta. split; [reflexivity |].
  destruct (run_registered evs (exec unregisterPushToTalk w)) as (_ & _ & Hcall).
  induction (allEffects evs (exec unregisterPushToTalk w)) as [| e es IH];
    [reflexivity |].
  cbn in Hcall. apply andb_prop in Hcall as [He Hes].
  destruct e; cbn in *; try discriminate; auto.
Qed.

(** What a delivery that logs STOP looks like. *)
Lemma accepted_release_shape (ev : RawEvent) (w : World) :
  In (ConsoleLog "Push-to-talk: STOP") (effects (deliver ev) w) ->
  ev = KeyUp (pushToTalkKey CONFIG) /\
  isKeyHeld (state w) = true /\
  debounceMs CONFIG <= nextReading w - lastKeyUpTime (state w) /\
  minRecordingMs CONFIG
    <= clock w (S (reads w)) - recordingStartTime (state w) /\
  effects (deliver ev) w =
    ConsoleLog "Push-to-talk: STOP" ::
      match onStop (state w) with
      | Some f => [InvokeOnStop f]
      | None => []
      end.
Proof.
  unfold effects. destruct ev as [kc | kc]; unfold PushToTalk.deliver.
  - rewrite handleKeyDown_cases. cbn.
    split_guards; cbn; intuition (try discriminate; try congruence).
  - rewrite handleKeyUp_cases. cbn. unfold nextReading.
    destruct (Z.eqb_spec kc AltRight) as [-> | Hne]; cbn; [| tauto].
    destruct (isKeyHeld (state w)); cbn; [| tauto].
    destruct (Z.ltb_spec (clock w (reads w) - lastKeyUpTime (state w)) 50);
      cbn; [tauto |].
    destruct (Z.ltb_spec (clock w (S (reads w)) - recordingStartTime (state w)) 200);
      cbn.
    + intros [Hd | []]. discriminate Hd.
    + intros _. repeat split; auto.
Qed.

(** X3.  A delivery logs an accepted release only for a key-up of the
    push-to-talk key that finds the key held, outside the key-up debounce
    window and at least [minRecordingMs] after the recording started; it
    then logs STOP and invokes exactly the registered stop callback. *)
Theorem release_accepted_only_after_min_hold (ev : RawEvent) (w : World) :
  In (ConsoleLog "Push-to-talk: STOP") (effects (deliver ev) w) ->
  ev = KeyUp (pushToTalkKey CONFIG) /\
  isKeyHeld (state w) = true /\
  debounceMs CONFIG <= nextReading w - lastKeyUpTime (state w) /\
  minRecordingMs CONFIG
    <= clock w (S (reads w)) - recordingStartTime (state w) /\
  effects (deliver ev) w =
    ConsoleLog "Push-to-talk: STOP" ::
      match onStop (state w) with
      | Some f => [InvokeOnStop f]
      | None => []
      end.
Proof.
  apply accepted_release_shape.
Qed.

(** Only an accepted press sets the held flag. *)
Lemma held_set_by_accepted_press (ev : RawEvent) (w : World) :
  isKeyHeld (state w) = false ->
  isKeyHeld (state (exec (deliver ev) w)) = true ->
  In (ConsoleLog "Push-to-talk: START") (effects (deliver ev) w).
Proof.
  unfold effects, exec. destruct ev as [kc | kc]; unfold PushToTalk.deliver.
  - rewrite handleKeyDown_cases. cbn. intros Hfree.
    split_guards; cbn; intros; try discriminate; try congruence; auto.
  - rewrite handleKeyUp_cases. cbn. intros Hfree.
    split_guards; cbn; intros; try discriminate; try congruence; auto.
Qed.

(** From a world in which the key is not held, a step that finds it held
    is preceded by an accepted press. *)
Lemma unheld_until_pressed (evs : list RawEvent) :
  forall (w : World) (j : nat) (sj : Step),
    isKeyHeld (state w) = false ->
    trace evs w !! j = Some sj ->
    isKeyHeld (state (before sj)) = true ->
    exists k sk, (k < j)%nat /\ trace evs w !! k = Some sk /\ acceptsPress sk.
Proof.
  induction evs as [| ev rest IH]; intros w j sj Hfree Hj Hsj; [discriminate |].
  destruct j as [| j]; cbn in Hj.
  - injection Hj as <-. cbn in Hsj. congruence.
  - destruct (isKeyHeld (state (exec (deliver ev) w))) eqn:Hafter.
    + exists 0%nat. eexists. split; [lia |]. split; [reflexivity |].
      exact (held_set_by_accepted_press ev w Hfree Hafter).
    + destruct (IH _ _ _ Hafter Hj Hsj) as (k & sk & Hk & Hlk & Hpress).
      exists (S k), sk. split; [lia |]. split; [exact Hlk | exact Hpress].
Qed.

(** The step at position [j] of a run starts from the world the first [j]
    signals lead to. *)
Lemma trace_suffix (evs : list RawEvent) :
  forall (w : World) (i : nat) (si : Step),
    trace evs w !! i = Some si ->
    forall (n : nat) (s : Step),
      trace evs w !! (S i + n)%nat = Some s ->
      trace (drop (S i) evs) (after si) !! n = Some s.
Proof.
  induction evs as [| ev rest IH]; intros w i si Hi n s Hs; [discriminate |].
  destruct i as [| i]; cbn in Hi.
  - injection Hi as <-. exact Hs.
  - exact (IH _ _ _ Hi n s Hs).
Qed.

Lemma trace_suffix_back (evs : list RawEvent) :
  forall (w : World) (i : nat) (si : Step),
    trace evs w !! i = Some si ->
    forall (n : nat) (s : Step),
      trace (drop (S i) evs) (after si) !! n = Some s ->
      trace evs w !! (S i + n)%nat = Some s.
Proof.
  induction evs as [| ev rest IH]; intros w i si Hi n s Hs; [discriminate |].
  destruct i as [| i]; cbn in Hi.
  - injection Hi as <-. exact Hs.
  - exact (IH _ _ _ Hi n s Hs).
Qed.

(** X4.  Starting with the key not held, every accepted release in a run
    is preceded by an accepted press: STOP is never reported for a press
    that was not reported. *)
Theorem release_preceded_by_press
    (evs : list RawEvent) (w : World) (j : nat) (sj : Step) :
  isKeyHeld (state w) = false ->
  trace evs w !! j = Some sj ->
  acceptsRelease sj ->
  exists k sk, (k < j)%nat /\ trace evs w !! k = Some sk /\ acceptsPress sk.
Proof.
  intros Hfree Hj Hrel.
  assert (Hheld : isKeyHeld (state (before sj)) = true).
  { assert (Hshape : In (ConsoleLog "Push-to-talk: STOP")
                        (effects (deliver (event sj)) (before sj))).
    { clear - Hj Hrel. revert w j Hj.
      induction evs as [| ev rest IH]; intros w j Hj; [discriminate |].
      destruct j as [| j]; cbn in Hj; [injection Hj as <-; exact Hrel | eauto]. }
    now apply accepted_release_shape in Hshape. }
  exact (unheld_until_pressed evs w j sj Hfree Hj Hheld).
Qed.

(** Each step of a run is one delivery. *)
Lemma trace_step_shape (evs : list RawEvent) :
  forall (w : World) (j : nat) (sj : Step),
    trace evs w !! j = Some sj ->
    emitted sj = effects (deliver (event sj)) (before sj) /\
    after sj = exec (deliver (event sj)) (before sj).
Proof.
  induction evs as [| ev rest IH]; intros w j sj Hj; [discriminate |].
  destruct j as [| j]; cbn in Hj; [injection Hj as <-; split; reflexivity | eauto].
Qed.

(** An accepted release leaves the key not held. *)
Lemma accepted_release_clears_held (ev : RawEvent) (w : World) :
  In (ConsoleLog "Push-to-talk: STOP") (effects (deliver ev) w) ->
  isKeyHeld (state (exec (deliver ev) w)) = false.
Proof.
  intros Hin. destruct (accepted_release_shape ev w Hin) as (-> & Hheld & Hdeb & Hmin & _).
  unfold exec, PushToTalk.deliver. rewrite handleKeyUp_cases. cbn in *.
  rewrite Z.eqb_refl, Hheld. cbn.
  destruct (Z.ltb_spec (nextReading w - lastKeyUpTime (state w)) 50); [lia |].
  destruct (Z.ltb_spec (clock w (S (reads w)) - recordingStartTime (state w)) 200);
    [lia | reflexivity].
Qed.

(** X5.  Two accepted releases in a run are always separated by an accepted
    press: STOP is never reported twice for one press. *)
Theorem releases_separated_by_press
    (evs : list RawEvent) (w : World) (i j : nat) (si sj : Step) :
  trace evs w !! i = Some si ->
  trace evs w !! j = Some sj ->
  (i < j)%nat ->
  acceptsRelease si ->
  acceptsRelease sj ->
  exists k sk, (i < k < j)%nat /\ trace evs w !! k = Some sk /\ acceptsPress sk.
Proof.
  intros Hi Hj Hlt Hri Hrj.
  destruct (trace_step_shape evs w i si Hi) as [Hei Hai].
  destruct (trace_step_shape evs w j sj Hj) as [Hej _].
  unfold acceptsRelease in Hri, Hrj. rewrite Hei in Hri. rewrite Hej in Hrj.
  assert (Hfree : isKeyHeld (state (after si)) = false)
    by (rewrite Hai; now apply accepted_release_clears_held).
  assert (Hheld : isKeyHeld (state (before sj)) = true)
    by now apply accepted_release_shape in Hrj.
  replace j with (S i + (j - S i))%nat in Hj by lia.
  pose proof (trace_suffix evs w i si Hi _ _ Hj) as Hsuffix.
  destruct (unheld_until_pressed _ _ _ _ Hfree Hsuffix Hheld)
    as (k & sk & Hk & Hlk & Hpress).
  exists (S i + k)%nat, sk. split; [lia |]. split; [| exact Hpress].
  exact (trace_suffix_back evs w i si Hi _ _ Hlk).
Qed.

(** X6.  While the key is held, any number of further key-down signals
    (keyboard auto-repeat, or other keys) is ignored: nothing is logged, no
    callback is invoked and the state object stays as it is. *)
Theorem auto_repeat_is_ignored (kcs : list Z) (w : World) :
  isKeyHeld (state w) = true ->
  allEffects (map KeyDown kcs) w = [] /\
  state (run (map KeyDown kcs) w) = state w.
Proof.
  revert w. induction kcs as [| kc rest IH]; intros w Hheld; [split; reflexivity |].
  cbn [map]. rewrite run_cons, allEffects_cons.
  destruct (handleKeyDown_while_held AltRight kc w Hheld) as [He Hs].
  cbn [PushToTalk.deliver]. rewrite He.
  assert (Hheld' : isKeyHeld (state (exec (handleKeyDown kc) w)) = true)
    by (rewrite Hs; exact Hheld).
  destruct (IH _ Hheld') as [IHe IHs]. split; [exact IHe | congruence].
Qed.

Lemma deliver_keeps_stamps_ordered (ev : RawEvent) (w : World) :
  monotone (clock w) -> stampsOrdered w -> stampsOrdered (exec (deliver ev) w).
Proof.
  intros Hmono (Hdr & Hrn & Hun & Hheld).
  pose proof (Hmono (reads w)) as H1.
  pose proof (Hmono (S (reads w))) as H2.
  pose proof (Hmono (S (S (reads w)))) as H3.
  unfold stampsOrdered, nextReading, exec in *.
  destruct ev as [kc | kc]; unfold PushToTalk.deliver.
  - rewrite handleKeyDown_cases. cbn. unfold nextReading.
    split_guards; cbn; repeat split; try lia; try (intros; discriminate);
      intros; try lia; auto.
  - rewrite handleKeyUp_cases. cbn. unfold nextReading.
    split_guards; cbn; repeat split; try lia; try (intros; discriminate);
      intros; try lia; auto.
    all: try (apply negb_false_iff in Heqb0; specialize (Hheld Heqb0); lia).
Qed.

(** X7.  With a clock that never runs backwards, the recorded times stay in
    order through any sequence of raw signals: [lastKeyDownTime] is at most
    [recordingStartTime], neither it nor [lastKeyUpTime] lies in the future,
    and while the key is held the last accepted release lies before the
    start of the recording.  So the hold duration [handleKeyUp] measures is
    never negative. *)
Theorem recorded_times_stay_ordered (evs : list RawEvent) (w : World) :
  monotone (clock w) ->
  stampsOrdered w ->
  let w' := run evs w in
  stampsOrdered w' /\
  0 <= clock w' (S (reads w')) - recordingStartTime (state w').
Proof.
  cbn zeta. intros Hmono Hord.
  assert (Hrun : stampsOrdered (run evs w) /\ clock (run evs w) = clock w).
  { revert w Hmono Hord. induction evs as [| ev rest IH]; intros w Hmono Hord;
      [split; [exact Hord | reflexivity] |].
    rewrite run_cons. destruct (deliver_frame ev w) as (Hclock & _).
    destruct (IH (exec (deliver ev) w)) as [IHord IHclock].
    - now rewrite Hclock.
    - now apply deliver_keeps_stamps_ordered.
    - split; [exact IHord | congruence]. }
  destruct Hrun as [Hord' Hclock]. split; [exact Hord' |].
  destruct Hord' as (_ & Hrn & _). unfold nextReading in Hrn.
  rewrite Hclock in *. pose proof (Hmono (reads (run evs w))). lia.
Qed.

(** X29.  The browser-window-blur listener clears the held flag without
    logging or invoking a callback, so a recording that was started is not
    stopped by it; afterwards a key left stuck as held no longer blocks the
    next press: a push-to-talk key-down outside the debounce window is
    accepted. *)
Theorem blur_releases_stuck_key (w : World) :
  debounceMs CONFIG <= nextReading w - lastKeyDownTime (state w) ->
  let w1 := exec onBrowserWindowBlur w in
  effects onBrowserWindowBlur w = [] /\
  isKeyHeld (state w1) = false /\
  effects (handleKeyDown (pushToTalkKey CONFIG)) w1 =
    ConsoleLog "Push-to-talk: START" ::
      match onStart (state w) with
      | Some f => [InvokeOnStart f]
      | None => []
      end /\
  isKeyHeld (state (exec (handleKeyDown (pushToTalkKey CONFIG)) w1)) = true.
Proof.
  cbn zeta. intros Hwin.
  assert (Hblur : onBrowserWindowBlur w
                  = (tt, {| state := set_isKeyHeld false (state w);
                            clock := clock w; reads := reads w |}, [])).
  { unfold onBrowserWindowBlur, get, modify, bind, gets, modifies, ret. cbn.
    destruct w as [[held d u r f g] c n]. destruct held; reflexivity. }
  unfold effects, exec. rewrite Hblur. cbn [fst snd].
  rewrite handleKeyDown_cases. cbn. rewrite Z.eqb_refl. cbn.
  unfold nextReading in *. cbn in *.
  destruct (Z.ltb_spec (clock w (reads w) - lastKeyDownTime (state w)) 50); [lia |].
  cbn. repeat split; reflexivity.
Qed.

End WithKey.

(** Right Alt held for a second and released. *)
Lemma release_accepted_witness :
  let w1 := exec (handleKeyDown sampleKey sampleKey) (worldAt (everyMs 1000)) in
  isKeyHeld (state w1) = true /\
  minRecordingMs (CONFIG sampleKey)
    <= clock w1 (S (reads w1)) - recordingStartTime (state w1) /\
  effects (deliver sampleKey (KeyUp sampleKey)) w1
    = [ConsoleLog "Push-to-talk: STOP"; InvokeOnStop 2%nat].
Proof.
  cbn zeta.
  destruct (release_accepted_only_after_min_hold sampleKey (KeyUp sampleKey)
              (exec (handleKeyDown sampleKey sampleKey) (worldAt (everyMs 1000))))
    as (_ & Hheld & _ & Hmin & Heff); [vm_compute; auto |].
  split; [exact Hheld |]. split; [exact Hmin | exact Heff].
Defined.

(** A press and its release. *)
Lemma press_before_release_witness :
  let evs := [KeyDown sampleKey; KeyUp sampleKey] in
  exists k sk, (k < 1)%nat /\
               trace sampleKey evs (worldAt (everyMs 1000)) !! k = Some sk /\
               acceptsPress sk.
Proof.
  cbn zeta.
  eapply (release_preceded_by_press sampleKey _ (worldAt (everyMs 1000)) 1).
  - reflexivity.
  - reflexivity.
  - vm_compute. auto.
Defined.

(** A press, its release, a second press and its release. *)
Lemma releases_separated_witness :
  let evs := [KeyDown sampleKey; KeyUp sampleKey; KeyDown sampleKey; KeyUp sampleKey] in
  exists k sk, (1 < k < 3)%nat /\
               trace sampleKey evs (worldAt (everyMs 1000)) !! k = Some sk /\
               acceptsPress sk.
Proof.
  cbn zeta.
  eapply (releases_separated_by_press sampleKey _ (worldAt (everyMs 1000)) 1 3).
  - reflexivity.
  - reflexivity.
  - lia.
  - vm_compute. auto.
  - vm_compute. auto.
Defined.

(** Right Alt held down while the keyboard repeats it and another key. *)
Lemma auto_repeat_witness :
  let w1 := exec (handleKeyDown sampleKey sampleKey) (worldAt (everyMs 10)) in
  allEffects sampleKey (map KeyDown [sampleKey; sampleKey; 57; sampleKey]) w1 = [] /\
  state (run sampleKey (map KeyDown [sampleKey; sampleKey; 57; sampleKey]) w1)
    = state w1.
Proof.
  cbn zeta. apply (auto_repeat_is_ignored sampleKey). by_evaluation.
Defined.

Lemma everyMs_monotone (d : Z) : 0 <= d -> monotone (everyMs d).
Proof.
  intros Hd n. unfold everyMs, clockOf. cbn [map].
  do 10 (destruct n as [| n]; [cbn [nth]; lia |]).
  cbn [nth]. destruct n; lia.
Defined.

(** A press and a release read off a clock that ticks once a second. *)
Lemma recorded_times_witness :
  let w' := run sampleKey [KeyDown sampleKey; KeyUp sampleKey]
              (worldAt (everyMs 1000)) in
  stampsOrdered w' /\
  0 <= clock w' (S (reads w')) - recordingStartTime (state w').
Proof.
  cbn zeta.
  apply (recorded_times_stay_ordered sampleKey _ (worldAt (everyMs 1000))).
  - apply everyMs_monotone. lia.
  - unfold stampsOrdered. repeat split; try by_evaluation.
Defined.

(** Right Alt is down when the window loses focus; the key-up is missed. *)
Lemma blur_releases_witness :
  let w := exec (handleKeyDown sampleKey sampleKey) (worldAt (everyMs 1000)) in
  let w1 := exec onBrowserWindowBlur w in
  isKeyHeld (state w) = true /\
  effects onBrowserWindowBlur w = [] /\
  isKeyHeld (state w1) = false /\
  effects (handleKeyDown sampleKey sampleKey) w1 =
    [ConsoleLog "Push-to-talk: START"; InvokeOnStart 1%nat] /\
  isKeyHeld (state (exec (handleKeyDown sampleKey sampleKey) w1)) = true.
Proof.
  cbn zeta. split; [reflexivity |].
  apply (blur_releases_stuck_key sampleKey
           (exec (handleKeyDown sampleKey sampleKey) (worldAt (everyMs 1000)))).
  by_evaluation.
Defined.

End PushToTalkRunFacts.

(** * Properties of status-driven visibility and height requests *)

Module FloatingWindowRunFacts.
Import FloatingWindow FloatingWindowRuns FloatingWindowFacts.

Section WithLayout.

Variables MIN_HEIGHT MAX_HEIGHT CHROME_HEIGHT DEBOUNCE_THRESHOLD : Z.
Variables BOTTOM_OFFSET WIDTH screenHeight : Z.
Variable initialBounds : Rectangle.

Local Abbreviation show := (show MIN_HEIGHT initialBounds).
Local Abbreviation hide := (hide MIN_HEIGHT).
Local Abbreviation sendStatus := (sendStatus MIN_HEIGHT initialBounds).
Local Abbreviation setContentHeight :=
  (setContentHeight MAX_HEIGHT CHROME_HEIGHT DEBOUNCE_THRESHOLD BOTTOM_OFFSET
     WIDTH screenHeight).
Local Abbreviation targetHeight := (targetHeight CHROME_HEIGHT MAX_HEIGHT).

Lemma show_leaves_window (wm : WindowManager) : hasWindow (exec show wm) = true.
Proof.
  destruct wm as [[[[] b] |] h]; reflexivity.
Qed.

(** The three ways [sendStatus] can go. *)
Lemma sendStatus_cases (status : string) (wm : WindowManager) :
  sendStatus status wm =
    if shows status then
      (Returned, exec show wm, effects show wm ++ [WebContentsSend "status" status])
    else if hides status then
      (Returned, exec hide wm, effects hide wm)
    else if hasWindow wm then
      (Returned, wm, [WebContentsSend "status" status])
    else (TypeError, wm, []).
Proof.
  unfold shows, hides, visibleStatuses, FloatingWindow.sendStatus, includes.
  cbn [existsb].
  destruct (String.eqb_spec status "connecting") as [-> | _];
    [destruct wm as [[[[] b] |] h]; reflexivity |].
  destruct (String.eqb_spec status "listening") as [-> | _];
    [destruct wm as [[[[] b] |] h]; reflexivity |].
  destruct (String.eqb_spec status "processing") as [-> | _];
    [destruct wm as [[[[] b] |] h]; reflexivity |].
  cbn [orb]. destruct (String.eqb status "idle") eqn:Hidle.
  - destruct wm as [[[v b] |] h]; reflexivity.
  - destruct wm as [[[v b] |] h]; run_wm; rewrite ?Hidle; reflexivity.
Qed.

(** X8.  After [sendStatus] the window is visible for connecting, listening
    and processing, hidden for idle, and as visible as it was for every
    other status (done and error among them).  The call raises a TypeError
    exactly when the status is none of those four and no window exists;
    otherwise it returns. *)
Theorem visibility_follows_status (status : string) (wm : WindowManager) :
  isVisible (exec (sendStatus status) wm)
    = (if shows status then true
       else if hides status then false
       else isVisible wm) /\
  result (sendStatus status) wm
    = (if negb (shows status) && negb (hides status) && negb (hasWindow wm)
       then TypeError else Returned).
Proof.
  unfold exec, result. rewrite sendStatus_cases.
  destruct (shows status); cbn.
  - split; [apply show_makes_visible | reflexivity].
  - destruct (hides status); cbn.
    + split; [apply hide_makes_hidden | reflexivity].
    + destruct (hasWindow wm); cbn; split; reflexivity.
Qed.

(** X9.  [sendStatus] forwards at most one notification to the renderer, on
    the status channel and carrying the status it was given: exactly one
    for connecting, listening and processing; none for idle; for any other
    status one if a window exists and none otherwise. *)
Theorem at_most_one_notification (status : string) (wm : WindowManager) :
  List.filter isSend (effects (sendStatus status) wm)
    = (if shows status then [WebContentsSend "status" status]
       else if hides status then []
       else if hasWindow wm then [WebContentsSend "status" status]
       else []).
Proof.
  unfold effects. rewrite sendStatus_cases.
  destruct (shows status); cbn.
  - rewrite List.filter_app. cbn.
    destruct wm as [[[[] b] |] h]; reflexivity.
  - destruct (hides status); cbn.
    + destruct wm as [[[v b] |] h]; reflexivity.
    + destruct (hasWindow wm); reflexivity.
Qed.

(** X10.  The first-time setup runs once when a visible status follows
    idle, and not again when another visible status follows it: status
    changes while the window is visible do not repeat the setup. *)
Theorem setup_once_per_visible_session (st1 st2 : string) (wm : WindowManager) :
  shows st1 = true ->
  shows st2 = true ->
  let hidden := exec (sendStatus "idle") wm in
  let shown := exec (sendStatus st1) hidden in
  setups (effects (sendStatus st1) hidden) = 1%nat /\
  setups (effects (sendStatus st2) shown) = 0%nat /\
  exec (sendStatus st2) shown = shown.
Proof.
  intros H1 H2. cbn zeta. unfold exec, effects, setups.
  rewrite (sendStatus_cases "idle"). cbn [shows hides visibleStatuses includes existsb
    String.eqb Ascii.eqb Bool.eqb orb fst snd].
  rewrite (sendStatus_cases st1), H1. cbn [fst snd].
  rewrite (sendStatus_cases st2), H2. cbn [fst snd].
  assert (Hhidden : isVisible (exec hide wm) = false) by apply hide_makes_hidden.
  destruct (show_when_hidden MIN_HEIGHT initialBounds _ Hhidden) as (win & Hexec & Hset & _).
  rewrite !List.filter_app. unfold effects, exec in *. rewrite Hset, Hexec. cbn.
  repeat split; reflexivity.
Qed.

(** What [setContentHeight] does when no window exists. *)
Lemma setContentHeight_without_window (contentHeight : Z) (wm : WindowManager) :
  window wm = None ->
  setContentHeight contentHeight wm =
    (if Z.abs (targetHeight contentHeight - currentHeight wm) <? DEBOUNCE_THRESHOLD
     then Returned else TypeError, wm, []).
Proof.
  intros Hwin. destruct wm as [w h]. cbn in Hwin. subst w. run_wm.
  unfold FloatingWindowRuns.targetHeight. destruct (_ <? _); reflexivity.
Qed.

(** X11.  With a positive threshold, asking for the same content height
    twice changes nothing the second time: the repeat applies no bounds
    change and leaves the manager as the first call left it. *)
Theorem same_height_twice_is_applied_once (contentHeight : Z) (wm : WindowManager) :
  0 < DEBOUNCE_THRESHOLD ->
  let wm1 := exec (setContentHeight contentHeight) wm in
  effects (setContentHeight contentHeight) wm1 = [] /\
  exec (setContentHeight contentHeight) wm1 = wm1.
Proof.
  intros Hpos. cbn zeta. unfold exec, effects.
  destruct (window wm) as [win |] eqn:Hwin.
  - rewrite (setContentHeight_cases MAX_HEIGHT CHROME_HEIGHT DEBOUNCE_THRESHOLD
               BOTTOM_OFFSET WIDTH screenHeight contentHeight wm win Hwin).
    cbn zeta.
    destruct (Z.ltb_spec (Z.abs (Z.min (CHROME_HEIGHT + contentHeight) MAX_HEIGHT
                                 - currentHeight wm)) DEBOUNCE_THRESHOLD) as [Hlt | Hge];
      cbn [fst snd].
    + rewrite (setContentHeight_cases MAX_HEIGHT CHROME_HEIGHT DEBOUNCE_THRESHOLD
                 BOTTOM_OFFSET WIDTH screenHeight contentHeight wm win Hwin).
      cbn zeta. apply Z.ltb_lt in Hlt. rewrite Hlt. split; reflexivity.
    + erewrite setContentHeight_cases by reflexivity. cbn.
      rewrite Z.sub_diag. change (Z.abs 0) with 0.
      apply Z.ltb_lt in Hpos. rewrite Hpos. split; reflexivity.
  - rewrite (setContentHeight_without_window contentHeight wm Hwin). cbn [fst snd].
    rewrite (setContentHeight_without_window contentHeight wm Hwin). split; reflexivity.
Qed.

(** X12.  With a positive threshold and a window, after every request the
    stored height is within the threshold of the requested target height,
    whether or not the request was applied; when it was applied the stored
    height is the height the window now has. *)
Theorem stored_height_tracks_target (contentHeight : Z) (wm : WindowManager)
    (win : BrowserWindow) :
  0 < DEBOUNCE_THRESHOLD ->
  window wm = Some win ->
  let wm1 := exec (setContentHeight contentHeight) wm in
  Z.abs (targetHeight contentHeight - currentHeight wm1) < DEBOUNCE_THRESHOLD /\
  (effects (setContentHeight contentHeight) wm = [] \/
   exists win1, window wm1 = Some win1 /\
                height (bounds win1) = currentHeight wm1 /\
                visible win1 = visible win /\
                width (bounds win1) = WIDTH).
Proof.
  intros Hpos Hwin. cbn zeta. unfold exec, effects, FloatingWindowRuns.targetHeight.
  rewrite (setContentHeight_cases MAX_HEIGHT CHROME_HEIGHT DEBOUNCE_THRESHOLD
             BOTTOM_OFFSET WIDTH screenHeight contentHeight wm win Hwin).
  cbn zeta.
  destruct (Z.ltb_spec (Z.abs (Z.min (CHROME_HEIGHT + contentHeight) MAX_HEIGHT
                               - currentHeight wm)) DEBOUNCE_THRESHOLD) as [Hlt | Hge];
    cbn.
  - split; [exact Hlt | left; reflexivity].
  - split; [rewrite Z.sub_diag; cbn; lia |].
    right. eexists. split; [reflexivity |]. cbn. auto.
Qed.

(** X13.  Without a window [setContentHeight] never changes the manager and
    applies nothing; it returns when the change is below the threshold and
    raises a TypeError when it is not. *)
Theorem height_request_without_window (contentHeight : Z) (wm : WindowManager) :
  window wm = None ->
  exec (setContentHeight contentHeight) wm = wm /\
  effects (setContentHeight contentHeight) wm = [] /\
  result (setContentHeight contentHeight) wm
    = (if Z.abs (targetHeight contentHeight - currentHeight wm) <? DEBOUNCE_THRESHOLD
       then Returned else TypeError).
Proof.
  intros Hwin. unfold exec, effects, result.
  rewrite (setContentHeight_without_window contentHeight wm Hwin).
  repeat split; reflexivity.
Qed.


End WithLayout.

(** Showing the window for a new utterance, then two status changes. *)
Lemma setup_once_witness :
  let hidden := exec (sendStatus 60 sampleBounds "idle") sampleManager in
  let shown := exec (sendStatus 60 sampleBounds "connecting") hidden in
  setups (effects (sendStatus 60 sampleBounds "connecting") hidden) = 1%nat /\
  setups (effects (sendStatus 60 sampleBounds "listening") shown) = 0%nat /\
  exec (sendStatus 60 sampleBounds "listening") shown = shown.
Proof.
  exact (setup_once_per_visible_session 60 sampleBounds "connecting" "listening"
           sampleManager eq_refl eq_refl).
Defined.

(** The sample window asked twice for a content height of 200 px. *)
Lemma same_height_twice_witness :
  let wm1 := exec (sampleSetContentHeight 200) sampleManager in
  effects (sampleSetContentHeight 200) wm1 = [] /\
  exec (sampleSetContentHeight 200) wm1 = wm1.
Proof.
  apply (same_height_twice_is_applied_once 400 40 4 80 400 1080 200 sampleManager).
  reflexivity.
Defined.

Lemma stored_height_tracks_witness :
  let wm1 := exec (sampleSetContentHeight 62) sampleManager in
  Z.abs (targetHeight 40 400 62 - currentHeight wm1) < 4 /\
  (effects (sampleSetContentHeight 62) sampleManager = [] \/
   exists win1, window wm1 = Some win1 /\
                height (bounds win1) = currentHeight wm1 /\
                visible win1 = true /\
                width (bounds win1) = 400).
Proof.
  exact (stored_height_tracks_target 400 40 4 80 400 1080 62 sampleManager
           {| visible := true; bounds := sampleBounds |} eq_refl eq_refl).
Defined.

(** A manager whose window has not been created yet. *)
Lemma no_window_request_witness :
  let wm := {| window := None; currentHeight := 60 |} in
  exec (sampleSetContentHeight 200) wm = wm /\
  effects (sampleSetContentHeight 200) wm = [] /\
  result (sampleSetContentHeight 200) wm = TypeError.
Proof.
  exact (height_request_without_window 400 40 4 80 400 1080 200
           {| window := None; currentHeight := 60 |} eq_refl).
Defined.


End FloatingWindowRunFacts.

(** * Properties of the IPC registration chain *)

Module AsrIpcRunFacts.
Import AsrIpc AsrIpcRuns AsrIpcFacts.

(** X15.  [setupAllIpcHandlers] registers invoke handlers for asr:start and
    asr:stop only: every other channel keeps the handler it had, or none.
    In particular invoking asr:send-audio, asr:result, asr:status or
    asr:error on a fresh [ipcMain] is rejected for want of a handler. *)
Theorem setup_registers_start_and_stop_only
    (ipc ipc' : IpcMain) (channel : string) (args : list JSValue) :
  setupAllIpcHandlers ipc = Some ipc' ->
  channel <> START IPC_CHANNELS_ASR ->
  channel <> STOP IPC_CHANNELS_ASR ->
  ipcInvoke ipc' channel args = ipcInvoke ipc channel args.
Proof.
  unfold setupAllIpcHandlers, setupASRHandlers, ipcMain_handle, ipcMain_on, ipcInvoke.
  cbn. intros Hsetup Hstart Hstop.
  destruct (invokeHandlers ipc !! "asr:start"); [discriminate |]. cbn in Hsetup.
  destruct (<[ "asr:start" := startHandler ]> (invokeHandlers ipc) !! "asr:stop");
    [discriminate |].
  cbn in Hsetup. injection Hsetup as <-. cbn.
  unfold InvokeHandler in *.
  rewrite !lookup_insert_ne by congruence. reflexivity.
Qed.

(** X16.  After setup on an [ipcMain] that had no asr:send-audio listener,
    the channel has exactly the stub listener, and an audio chunk sent on
    it causes no effect: nothing is forwarded. *)
Theorem audio_chunks_are_dropped (ipc ipc' : IpcMain) (args : list JSValue) :
  setupAllIpcHandlers ipc = Some ipc' ->
  listeners ipc !! SEND_AUDIO IPC_CHANNELS_ASR = None ->
  length (default [] (listeners ipc' !! SEND_AUDIO IPC_CHANNELS_ASR)) = 1%nat /\
  ipcSend ipc' (SEND_AUDIO IPC_CHANNELS_ASR) args = [].
Proof.
  unfold setupAllIpcHandlers, setupASRHandlers, ipcMain_handle, ipcMain_on, ipcSend.
  cbn. intros Hsetup Hnone.
  destruct (invokeHandlers ipc !! "asr:start"); [discriminate |]. cbn in Hsetup.
  destruct (<[ "asr:start" := startHandler ]> (invokeHandlers ipc) !! "asr:stop");
    [discriminate |].
  cbn in Hsetup. injection Hsetup as <-. cbn.
  unfold Listener in *. rewrite lookup_insert_eq, Hnone. cbn. split; reflexivity.
Qed.

(** X17.  The registration chain can run once: a second
    [setupAllIpcHandlers] on the result of a successful one fails, because
    asr:start already has a handler. *)
Theorem setup_twice_fails (ipc ipc' : IpcMain) :
  setupAllIpcHandlers ipc = Some ipc' ->
  setupAllIpcHandlers ipc' = None.
Proof.
  intros Hsetup. destruct (setupASRHandlers_registers ipc ipc' Hsetup) as [Hstart _].
  unfold setupAllIpcHandlers, setupASRHandlers, ipcMain_handle. cbn.
  unfold InvokeHandler in *. rewrite Hstart. reflexivity.
Qed.

(** A fresh [ipcMain], set up once. *)
Lemma setup_registers_witness :
  exists ipc',
    setupAllIpcHandlers emptyIpcMain = Some ipc' /\
    ipcInvoke ipc' "asr:status" [JSString "idle"]
      = ipcInvoke emptyIpcMain "asr:status" [JSString "idle"].
Proof.
  destruct (setupASRHandlers_succeeds emptyIpcMain eq_refl eq_refl) as [ipc' Hsetup].
  exists ipc'. split; [exact Hsetup |].
  apply (setup_registers_start_and_stop_only emptyIpcMain ipc' "asr:status" _ Hsetup);
    discriminate.
Defined.

Lemma audio_chunks_witness :
  exists ipc',
    setupAllIpcHandlers emptyIpcMain = Some ipc' /\
    length (default [] (listeners ipc' !! "asr:send-audio")) = 1%nat /\
    ipcSend ipc' "asr:send-audio" [JSNumber 0] = [].
Proof.
  destruct (setupASRHandlers_succeeds emptyIpcMain eq_refl eq_refl) as [ipc' Hsetup].
  exists ipc'. split; [exact Hsetup |].
  exact (audio_chunks_are_dropped emptyIpcMain ipc' _ Hsetup eq_refl).
Defined.

Lemma setup_twice_witness :
  exists ipc',
    setupAllIpcHandlers emptyIpcMain = Some ipc' /\
    setupAllIpcHandlers ipc' = None.
Proof.
  destruct (setupASRHandlers_succeeds emptyIpcMain eq_refl eq_refl) as [ipc' Hsetup].
  exists ipc'. split; [exact Hsetup |].
  exact (setup_twice_fails emptyIpcMain ipc' Hsetup).
Defined.

End AsrIpcRunFacts.

(** * Properties of the Bluetooth remote's click detection *)

Module RemoteClicksFacts.
Import RemoteClicks.

Ltac run_clicks :=
  unfold handle, onData, fire, singleClickCallback, handleButtonPress,
    setTimeout, clearTimeout, set_lastPressTime, set_pendingClick,
    bind, gets, modifies, emit, ret, exec, effects, result in *;
  cbn in *.

(** Clearing a timer that is not in the table changes nothing. *)
Lemma filter_fresh (id : TimerId) (l : list (TimerId * Z)) :
  (forall i d, In (i, d) l -> (i < id)%nat) ->
  List.filter (keep id) l = l.
Proof.
  induction l as [| [i d] l IH]; intros Hfresh; [reflexivity |].
  cbn. unfold keep at 1. cbn.
  destruct (Nat.eqb_spec i id) as [-> | _].
  - specialize (Hfresh id d (or_introl eq_refl)). lia.
  - cbn. f_equal. apply IH. intros i' d' Hin. apply (Hfresh i' d'). now right.
Qed.

Lemma filter_keep_length (id : TimerId) (l : list (TimerId * Z)) :
  (length (List.filter (keep id) l) <= length l)%nat.
Proof.
  induction l as [| t l IH]; cbn; [lia |]. destruct (keep id t); cbn; lia.
Qed.

(** Clearing a timer that is in the table removes at least one entry. *)
Lemma filter_live_length (id : TimerId) (l : list (TimerId * Z)) :
  existsb (fun t => Nat.eqb (fst t) id) l = true ->
  (S (length (List.filter (keep id) l)) <= length l)%nat.
Proof.
  induction l as [| [i d] l IH]; cbn; [discriminate |].
  unfold keep at 1. cbn. destruct (Nat.eqb i id); cbn.
  - intros _. pose proof (filter_keep_length id l). lia.
  - intros Hl. specialize (IH Hl). lia.
Qed.

(** The two ways a press can go. *)
Lemma handleButtonPress_cases (now : Z) (w : World) :
  handleButtonPress now w =
    if isDoubleClick (now - lastPressTime w) then
      (tt,
       {| lastPressTime := now;
          pendingClick := None;
          timers := match pendingClick w with
                    | Some id => List.filter (keep id) (timers w)
                    | None => timers w
                    end;
          nextTimer := nextTimer w |},
       [HandleDoubleClick])
    else
      (tt,
       {| lastPressTime := now;
          pendingClick := Some (nextTimer w);
          timers := timers w ++ [(nextTimer w, doubleClickMs CONFIG)];
          nextTimer := S (nextTimer w) |},
       []).
Proof.
  run_clicks. destruct (isDoubleClick _); [| reflexivity].
  destruct (pendingClick w); reflexivity.
Qed.

(** The two ways a timer event can go. *)
Lemma fire_cases (id : TimerId) (w : World) :
  fire id w =
    if isLive id w then
      (tt,
       {| lastPressTime := lastPressTime w;
          pendingClick := None;
          timers := List.filter (keep id) (timers w);
          nextTimer := nextTimer w |},
       [HandleSingleClick])
    else (tt, w, []).
Proof.
  run_clicks. destruct (isLive id w); reflexivity.
Qed.

Lemma isLive_app (id : TimerId) (w : World) (l : list (TimerId * Z)) :
  existsb (fun t => Nat.eqb (fst t) id) (timers w ++ l)
  = isLive id w || existsb (fun t => Nat.eqb (fst t) id) l.
Proof. unfold isLive. apply existsb_app. Qed.

Lemma wellFormed_fresh (w : World) :
  wellFormed w -> forall i d, In (i, d) (timers w) -> (i < nextTimer w)%nat.
Proof.
  intros (Hids & _) i d Hin. now destruct (Hids i d Hin).
Qed.

(** X18.  When two presses are handled with no timer event between them,
    the first scheduling a single click and the second following it by more
    than [debounceMs] and less than [doubleClickMs], the second is reported
    at once as a double click and cancels the timer the first one scheduled:
    the pair reports one double click, [pendingClick] is null and the timer
    table is as it was before the two presses.  (A timer that fires between
    the presses nulls [pendingClick]; that case is X30.) *)
Theorem double_click_cancels_pending_single (t1 t2 : Z) (w : World) :
  wellFormed w ->
  isDoubleClick (t1 - lastPressTime w) = false ->
  debounceMs CONFIG < t2 - t1 < doubleClickMs CONFIG ->
  let both := bind (handleButtonPress t1) (fun _ => handleButtonPress t2) in
  effects both w = [HandleDoubleClick] /\
  timers (exec both w) = timers w /\
  pendingClick (exec both w) = None /\
  lastPressTime (exec both w) = t2.
Proof.
  intros Hwf Hfirst Hgap. cbn zeta. unfold effects, exec, bind.
  rewrite handleButtonPress_cases, Hfirst.
  rewrite handleButtonPress_cases. cbn [lastPressTime pendingClick timers nextTimer].
  assert (Hdouble : isDoubleClick (t2 - t1) = true).
  { unfold isDoubleClick. cbn in *.
    apply andb_true_intro; split; apply Z.ltb_lt; lia. }
  rewrite Hdouble. cbn. repeat split.
  rewrite List.filter_app, (filter_fresh _ _ (wellFormed_fresh w Hwf)). cbn.
  unfold keep. cbn. rewrite Nat.eqb_refl. cbn. apply app_nil_r.
Qed.

Lemma not_live_when_fresh (id : TimerId) (w : World) :
  (forall i d, In (i, d) (timers w) -> (i < id)%nat) ->
  isLive id w = false.
Proof.
  intros Hfresh. unfold isLive. apply not_true_is_false. intros Hex.
  apply existsb_exists in Hex as ([i d] & Hin & Heq). cbn in Heq.
  apply Nat.eqb_eq in Heq. subst i. specialize (Hfresh _ _ Hin). lia.
Qed.

(** X19.  Two presses that do not form a double click, because they are
    [doubleClickMs] or more apart or because the second comes within
    [debounceMs] of the first, are not merged: each schedules its own
    timer, the first timer is not cancelled, and when the two timers fire
    two single clicks are reported. *)
Theorem separate_presses_report_separately (t1 t2 : Z) (w : World) :
  wellFormed w ->
  isDoubleClick (t1 - lastPressTime w) = false ->
  isDoubleClick (t2 - t1) = false ->
  let n := nextTimer w in
  let all := handleAll [Report pressReport t1; Report pressReport t2; Fire n; Fire (S n)] in
  effects all w = [HandleSingleClick; HandleSingleClick] /\
  timers (exec all w) = timers w /\
  pendingClick (exec all w) = None.
Proof.
  intros Hwf H1 H2. cbn zeta.
  pose proof (wellFormed_fresh w Hwf) as Hfresh.
  assert (Hfresh' : forall i d, In (i, d) (timers w) -> (i < S (nextTimer w))%nat)
    by (intros i d Hin; specialize (Hfresh _ _ Hin); lia).
  pose (d := doubleClickMs CONFIG).
  pose (w1 := {| lastPressTime := t1; pendingClick := Some (nextTimer w);
                 timers := timers w ++ [(nextTimer w, d)];
                 nextTimer := S (nextTimer w) |}).
  pose (w2 := {| lastPressTime := t2; pendingClick := Some (S (nextTimer w));
                 timers := (timers w ++ [(nextTimer w, d)]) ++ [(S (nextTimer w), d)];
                 nextTimer := S (S (nextTimer w)) |}).
  pose (w3 := {| lastPressTime := t2; pendingClick := None;
                 timers := timers w ++ [(S (nextTimer w), d)];
                 nextTimer := S (S (nextTimer w)) |}).
  pose (w4 := {| lastPressTime := t2; pendingClick := None;
                 timers := timers w;
                 nextTimer := S (S (nextTimer w)) |}).
  assert (E1 : handle (Report pressReport t1) w = (tt, w1, [])).
  { cbn [handle]. unfold onData. change (isButtonPress pressReport) with true. cbn iota.
    rewrite handleButtonPress_cases, H1. reflexivity. }
  assert (E2 : handle (Report pressReport t2) w1 = (tt, w2, [])).
  { cbn [handle]. unfold onData. change (isButtonPress pressReport) with true. cbn iota.
    rewrite handleButtonPress_cases. cbn [lastPressTime w1]. rewrite H2. reflexivity. }
  assert (E3 : handle (Fire (nextTimer w)) w2 = (tt, w3, [HandleSingleClick])).
  { cbn [handle]. rewrite fire_cases.
    assert (Hlive : isLive (nextTimer w) w2 = true).
    { unfold isLive. cbn [timers w2]. rewrite !existsb_app. cbn.
      rewrite Nat.eqb_refl. now rewrite orb_true_r. }
    rewrite Hlive. unfold w3. cbn [lastPressTime nextTimer timers w2]. repeat f_equal.
    rewrite !List.filter_app, (filter_fresh _ _ Hfresh).
    cbn [List.filter]. unfold keep. cbn [fst].
    rewrite Nat.eqb_refl.
    replace (Nat.eqb (S (nextTimer w)) (nextTimer w)) with false
      by (symmetry; apply Nat.eqb_neq; lia).
    cbn [negb]. now rewrite app_nil_r. }
  assert (E4 : handle (Fire (S (nextTimer w))) w3 = (tt, w4, [HandleSingleClick])).
  { cbn [handle]. rewrite fire_cases.
    assert (Hlive : isLive (S (nextTimer w)) w3 = true).
    { unfold isLive. cbn [timers w3]. rewrite !existsb_app. cbn.
      rewrite Nat.eqb_refl. now rewrite orb_true_r. }
    rewrite Hlive. unfold w4. cbn [lastPressTime nextTimer timers w3]. repeat f_equal.
    rewrite !List.filter_app, (filter_fresh _ _ Hfresh').
    cbn [List.filter]. unfold keep. cbn [fst].
    rewrite Nat.eqb_refl. cbn [negb]. apply app_nil_r. }
  unfold effects, exec. cbn [handleAll]. unfold bind.
  rewrite E1, E2, E3, E4. cbn. repeat split; reflexivity.
Qed.

(** X30.  A double click cancels only the timer [pendingClick] names, and
    every timer that fires nulls [pendingClick], whichever timer it is.  So
    when two presses each schedule a single click, the first timer fires,
    and a third press then follows the second by more than [debounceMs] and
    less than [doubleClickMs], the third press is reported as a double click
    but the second press's timer is not cancelled: it still fires, and the
    three presses report single, double, single. *)
Theorem stale_timer_survives_double_click (t1 t2 t3 : Z) (w : World) :
  wellFormed w ->
  isDoubleClick (t1 - lastPressTime w) = false ->
  isDoubleClick (t2 - t1) = false ->
  debounceMs CONFIG < t3 - t2 < doubleClickMs CONFIG ->
  let n := nextTimer w in
  let all := handleAll [Report pressReport t1; Report pressReport t2; Fire n;
                        Report pressReport t3; Fire (S n)] in
  effects all w = [HandleSingleClick; HandleDoubleClick; HandleSingleClick] /\
  timers (exec all w) = timers w /\
  pendingClick (exec all w) = None.
Proof.
  intros Hwf H1 H2 Hgap. cbn zeta.
  pose proof (wellFormed_fresh w Hwf) as Hfresh.
  assert (Hfresh' : forall i d, In (i, d) (timers w) -> (i < S (nextTimer w))%nat)
    by (intros i d Hin; specialize (Hfresh _ _ Hin); lia).
  assert (H3 : isDoubleClick (t3 - t2) = true).
  { unfold isDoubleClick. cbn in *.
    apply andb_true_intro; split; apply Z.ltb_lt; lia. }
  pose (d := doubleClickMs CONFIG).
  pose (w1 := {| lastPressTime := t1; pendingClick := Some (nextTimer w);
                 timers := timers w ++ [(nextTimer w, d)];
                 nextTimer := S (nextTimer w) |}).
  pose (w2 := {| lastPressTime := t2; pendingClick := Some (S (nextTimer w));
                 timers := (timers w ++ [(nextTimer w, d)]) ++ [(S (nextTimer w), d)];
                 nextTimer := S (S (nextTimer w)) |}).
  pose (w3 := {| lastPressTime := t2; pendingClick := None;
                 timers := timers w ++ [(S (nextTimer w), d)];
                 nextTimer := S (S (nextTimer w)) |}).
  pose (w4 := {| lastPressTime := t3; pendingClick := None;
                 timers := timers w ++ [(S (nextTimer w), d)];
                 nextTimer := S (S (nextTimer w)) |}).
  pose (w5 := {| lastPressTime := t3; pendingClick := None;
                 timers := timers w;
                 nextTimer := S (S (nextTimer w)) |}).
  assert (E1 : handle (Report pressReport t1) w = (tt, w1, [])).
  { cbn [handle]. unfold onData. change (isButtonPress pressReport) with true. cbn iota.
    rewrite handleButtonPress_cases, H1. reflexivity. }
  assert (E2 : handle (Report pressReport t2) w1 = (tt, w2, [])).
  { cbn [handle]. unfold onData. change (isButtonPress pressReport) with true. cbn iota.
    rewrite handleButtonPress_cases. cbn [lastPressTime w1]. rewrite H2. reflexivity. }
  assert (E3 : handle (Fire (nextTimer w)) w2 = (tt, w3, [HandleSingleClick])).
  { cbn [handle]. rewrite fire_cases.
    assert (Hlive : isLive (nextTimer w) w2 = true).
    { unfold isLive. cbn [timers w2]. rewrite !existsb_app. cbn.
      rewrite Nat.eqb_refl. now rewrite orb_true_r. }
    rewrite Hlive. unfold w3. cbn [lastPressTime nextTimer timers w2]. repeat f_equal.
    rewrite !List.filter_app, (filter_fresh _ _ Hfresh).
    cbn [List.filter]. unfold keep. cbn [fst].
    rewrite Nat.eqb_refl.
    replace (Nat.eqb (S (nextTimer w)) (nextTimer w)) with false
      by (symmetry; apply Nat.eqb_neq; lia).
    cbn [negb]. now rewrite app_nil_r. }
  assert (E4 : handle (Report pressReport t3) w3 = (tt, w4, [HandleDoubleClick])).
  { cbn [handle]. unfold onData. change (isButtonPress pressReport) with true. cbn iota.
    rewrite handleButtonPress_cases. cbn [lastPressTime pendingClick w3].
    rewrite H3. reflexivity. }
  assert (E5 : handle (Fire (S (nextTimer w))) w4 = (tt, w5, [HandleSingleClick])).
  { cbn [handle]. rewrite fire_cases.
    assert (Hlive : isLive (S (nextTimer w)) w4 = true).
    { unfold isLive. cbn [timers w4]. rewrite !existsb_app. cbn.
      rewrite Nat.eqb_refl. now rewrite orb_true_r. }
    rewrite Hlive. unfold w5. cbn [lastPressTime nextTimer timers w4]. repeat f_equal.
    rewrite !List.filter_app, (filter_fresh _ _ Hfresh').
    cbn [List.filter]. unfold keep. cbn [fst].
    rewrite Nat.eqb_refl. cbn [negb]. apply app_nil_r. }
  unfold effects, exec. cbn [handleAll]. unfold bind.
  rewrite E1, E2, E3, E4, E5. cbn. repeat split; reflexivity.
Qed.

(** One event adds at most one report or one live timer, and only if it is
    a press. *)
Lemma handle_accounting (ev : Event) (w : World) :
  (length (effects (handle ev) w) + length (timers (exec (handle ev) w))
   <= (if isPressEvent ev then 1 else 0) + length (timers w))%nat.
Proof.
  unfold effects, exec. destruct ev as [data now | id]; cbn [handle isPressEvent].
  - unfold onData. destruct (isButtonPress data); [| cbn; lia].
    rewrite handleButtonPress_cases. destruct (isDoubleClick _); cbn.
    + destruct (pendingClick w) as [id |]; [| lia].
      pose proof (filter_keep_length id (timers w)). lia.
    + rewrite length_app. cbn. lia.
  - rewrite fire_cases. destruct (isLive id w) eqn:Hlive; cbn; [| lia].
    pose proof (filter_live_length id (timers w) Hlive). lia.
Qed.

Lemma handleAll_cons (ev : Event) (rest : list Event) (w : World) :
  effects (handleAll (ev :: rest)) w
    = effects (handle ev) w ++ effects (handleAll rest) (exec (handle ev) w) /\
  exec (handleAll (ev :: rest)) w = exec (handleAll rest) (exec (handle ev) w).
Proof.
  unfold effects, exec. cbn [handleAll]. unfold bind.
  destruct (handle ev w) as [[u1 w1] e1]. cbn [fst snd].
  destruct (handleAll rest w1) as [[u2 w2] e2]. split; reflexivity.
Qed.

(** X20.  Whatever reports arrive and whichever timers fire, in any order,
    the clicks reported so far plus the single clicks still pending never
    exceed the button presses received plus the timers pending at the
    start: the detector never reports more clicks than there were
    presses. *)
Theorem never_more_clicks_than_presses (evs : list Event) (w : World) :
  (length (effects (handleAll evs) w) + length (timers (exec (handleAll evs) w))
   <= presses evs + length (timers w))%nat.
Proof.
  revert w. induction evs as [| ev rest IH]; intros w; [cbn; lia |].
  destruct (handleAll_cons ev rest w) as [-> ->].
  rewrite length_app. unfold presses in *. cbn [List.filter].
  pose proof (handle_accounting ev w) as Hstep.
  specialize (IH (exec (handle ev) w)).
  destruct (isPressEvent ev); cbn [length] in *; lia.
Qed.

Lemma filter_keep_NoDup (id : TimerId) (l : list (TimerId * Z)) :
  List.NoDup (map fst l) -> List.NoDup (map fst (List.filter (keep id) l)).
Proof.
  induction l as [| [i d] l IH]; cbn; intros Hnodup; [constructor |].
  apply List.NoDup_cons_iff in Hnodup as [Hni Hl].
  destruct (keep id (i, d)); cbn; [| auto].
  apply List.NoDup_cons; [| auto]. intros Hin. apply Hni.
  apply List.in_map_iff in Hin as ([i' d'] & Heq & Hin'). cbn in Heq. subst i'.
  apply List.filter_In in Hin' as [Hin' _].
  apply List.in_map_iff. now exists (i, d').
Qed.

(** Removing timers keeps the table well formed. *)
Lemma wellFormed_after_clear (w : World) (t : Z) (id : TimerId) :
  wellFormed w ->
  wellFormed {| lastPressTime := t; pendingClick := None;
                timers := List.filter (keep id) (timers w);
                nextTimer := nextTimer w |}.
Proof.
  intros (Hids & Hnodup & _). unfold wellFormed. cbn.
  split; [| split].
  - intros i d Hin. apply List.filter_In in Hin as [Hin _]. exact (Hids i d Hin).
  - now apply filter_keep_NoDup.
  - discriminate.
Qed.

Lemma handle_wellFormed (ev : Event) (w : World) :
  wellFormed w -> wellFormed (exec (handle ev) w).
Proof.
  intros Hwf. pose proof Hwf as (Hids & Hnodup & Hpending).
  pose proof (wellFormed_fresh w Hwf) as Hfresh.
  unfold exec. destruct ev as [data now | id]; cbn [handle].
  - unfold onData. destruct (isButtonPress data); [| exact Hwf].
    rewrite handleButtonPress_cases. destruct (isDoubleClick _); cbn [fst snd].
    + destruct (pendingClick w) as [id |]; [now apply wellFormed_after_clear |].
      unfold wellFormed. cbn. split; [exact Hids |]. split; [exact Hnodup | discriminate].
    + unfold wellFormed. cbn. split; [| split].
      * intros i d Hin. apply List.in_app_iff in Hin as [Hin | [Heq | []]].
        -- destruct (Hids _ _ Hin). split; [lia | assumption].
        -- injection Heq as <- <-. split; [lia | reflexivity].
      * rewrite map_app. cbn. apply List.NoDup_app; [exact Hnodup | |].
        -- apply List.NoDup_cons; [intros [] | constructor].
        -- intros i Hin [<- | []].
           apply List.in_map_iff in Hin as ([i' d'] & Heq & Hin). cbn in Heq. subst i'.
           specialize (Hfresh _ _ Hin). lia.
      * intros id [= <-]. unfold isLive. cbn. rewrite existsb_app. cbn.
        rewrite Nat.eqb_refl. now rewrite orb_true_r.
  - rewrite fire_cases. destruct (isLive id w); [| exact Hwf].
    now apply wellFormed_after_clear.
Qed.

(** X21.  From the initial state and through any reports and timer events,
    [pendingClick] is either null or names a timer that is still scheduled,
    every scheduled timer was created with the [doubleClickMs] delay, and
    no timer is scheduled twice. *)
Theorem pending_click_names_a_live_timer (evs : list Event) (w : World) :
  wellFormed w -> wellFormed (exec (handleAll evs) w).
Proof.
  revert w. induction evs as [| ev rest IH]; intros w Hwf; [exact Hwf |].
  destruct (handleAll_cons ev rest w) as [_ ->].
  apply IH. now apply handle_wellFormed.
Qed.

Lemma world0_wellFormed : wellFormed world0.
Proof.
  unfold wellFormed, world0. cbn. split; [intros id d [] |].
  split; [constructor | discriminate].
Defined.

(** Two presses 200 ms apart on a remote that has just been connected. *)
Lemma double_click_witness :
  let both := bind (handleButtonPress 1700000000000)
                   (fun _ => handleButtonPress 1700000000200) in
  effects both world0 = [HandleDoubleClick] /\
  timers (exec both world0) = [] /\
  pendingClick (exec both world0) = None /\
  lastPressTime (exec both world0) = 1700000000200.
Proof.
  apply (double_click_cancels_pending_single 1700000000000 1700000000200 world0
           world0_wellFormed); [reflexivity | cbn; lia].
Defined.

(** Two presses 30 ms apart, then both timers. *)
Lemma separate_presses_witness :
  let all := handleAll [Report pressReport 1700000000000;
                        Report pressReport 1700000000030;
                        Fire 0%nat; Fire 1%nat] in
  effects all world0 = [HandleSingleClick; HandleSingleClick] /\
  timers (exec all world0) = [] /\
  pendingClick (exec all world0) = None.
Proof.
  apply (separate_presses_report_separately 1700000000000 1700000000030 world0
           world0_wellFormed); reflexivity.
Defined.

(** Presses 30 ms apart, the first timer, a press 490 ms after the second,
    and the second timer. *)
Lemma stale_timer_witness :
  let all := handleAll [Report pressReport 1700000000000;
                        Report pressReport 1700000000030;
                        Fire 0%nat;
                        Report pressReport 1700000000520;
                        Fire 1%nat] in
  effects all world0 = [HandleSingleClick; HandleDoubleClick; HandleSingleClick] /\
  timers (exec all world0) = [] /\
  pendingClick (exec all world0) = None.
Proof.
  apply (stale_timer_survives_double_click 1700000000000 1700000000030
           1700000000520 world0 world0_wellFormed);
    [reflexivity | reflexivity | cbn; lia].
Defined.

(** A press, the release report, and the press's timer. *)
Lemma pending_click_witness :
  wellFormed (exec (handleAll [Report pressReport 1700000000000;
                               Report releaseReport 1700000000080;
                               Fire 0%nat]) world0).
Proof.
  apply (pending_click_names_a_live_timer _ world0 world0_wellFormed).
Defined.

End RemoteClicksFacts.

(** * Properties of the Bluetooth remote's connection handling *)

Module RemoteLinkFacts.
Import RemoteLink.

Ltac run_link :=
  unfold handle, onError, fire, cleanup, reconnectCallback, scheduleReconnect,
    clearReconnectTimer, closeDevice, initBluetoothRemote, openDevice,
    clearTimeout, setTimeout, set_hidDevice, set_reconnectTimer,
    set_isShuttingDown, bind, gets, modifies, emit, ret, exec, effects, result in *;
  cbn in *.

Lemma link_handleAll_cons (ev : Event) (rest : list Event) (w : World) :
  effects (handleAll (ev :: rest)) w
    = effects (handle ev) w ++ effects (handleAll rest) (exec (handle ev) w) /\
  exec (handleAll (ev :: rest)) w = exec (handleAll rest) (exec (handle ev) w).
Proof.
  unfold effects, exec. cbn [handleAll]. unfold bind.
  destruct (handle ev w) as [[u1 w1] e1]. cbn [fst snd].
  destruct (handleAll rest w1) as [[u2 w2] e2]. split; reflexivity.
Qed.

(** A failed attempt returns [false], leaves every module variable as it
    was, opens nothing and schedules nothing. *)
Lemma initBluetoothRemote_fails (host : Host) (w : World) :
  canConnect host = false ->
  exists es,
    initBluetoothRemote host w = (false, w, es) /\
    List.filter isOpen es = [] /\
    List.filter isRetryNotice es = [].
Proof.
  unfold canConnect. destruct host as [[devices |] ok]; run_link.
  - destruct (usablePath (List.find matchesConfig devices)); cbn.
    + intros ->. eexists. repeat split.
    + intros _. eexists. repeat split.
  - intros _. eexists. repeat split.
Qed.

(** A successful attempt returns [true], opens one device and stores it. *)
Lemma initBluetoothRemote_succeeds (host : Host) (w : World) :
  canConnect host = true ->
  exists es,
    initBluetoothRemote host w =
      (true,
       {| hidDevice := Some (nextHandle w); reconnectTimer := reconnectTimer w;
          isShuttingDown := isShuttingDown w; timers := timers w;
          nextTimer := nextTimer w; nextHandle := S (nextHandle w) |},
       es) /\
    length (List.filter isOpen es) = 1%nat /\
    List.filter isRetryNotice es = [].
Proof.
  unfold canConnect. destruct host as [[devices |] ok]; run_link; [| discriminate].
  destruct (usablePath (List.find matchesConfig devices)); cbn; [| discriminate].
  intros ->. eexists. repeat split.
Qed.

Lemma scheduleReconnect_cases (w : World) :
  scheduleReconnect w =
    if isShuttingDown w then (tt, w, [])
    else
      (tt,
       {| hidDevice := None; reconnectTimer := Some (nextTimer w);
          isShuttingDown := isShuttingDown w;
          timers := remaining w ++ [nextTimer w];
          nextTimer := S (nextTimer w); nextHandle := nextHandle w |},
       closing w ++ [ConsoleLog "Bluetooth disconnected, reconnecting in 3s..."]).
Proof.
  unfold remaining, closing. destruct w as [[h |] [id |] [] ts nt nh]; reflexivity.
Qed.

Lemma cleanup_cases (w : World) :
  cleanup w =
    (tt,
     {| hidDevice := None; reconnectTimer := reconnectTimer w;
        isShuttingDown := true; timers := remaining w;
        nextTimer := nextTimer w; nextHandle := nextHandle w |},
     closing w).
Proof.
  unfold remaining, closing. destruct w as [[h |] [id |] sd ts nt nh]; reflexivity.
Qed.

Lemma remaining_single (w : World) : singleTimer w -> remaining w = [].
Proof.
  unfold singleTimer, remaining. intros [Hnil | (id & Hone & Hrt)].
  - rewrite Hnil. now destruct (reconnectTimer w).
  - rewrite Hone, Hrt. cbn. now rewrite Nat.eqb_refl.
Qed.

Lemma triple_eta {A B C : Type} (x : A * B * C) :
  (let '(a, b, c) := x in (a, b, c)) = x.
Proof. now destruct x as [[a b] c]. Qed.

(** A timer event on a well-kept table: the timer that fires is the one
    [reconnectTimer] names, and the table is empty when its callback
    starts. *)
Lemma link_fire_cases (id : TimerId) (host : Host) (w : World) :
  singleTimer w ->
  fire id host w =
    if isLive id w then
      reconnectCallback host
        {| hidDevice := hidDevice w; reconnectTimer := reconnectTimer w;
           isShuttingDown := isShuttingDown w; timers := [];
           nextTimer := nextTimer w; nextHandle := nextHandle w |}
    else (tt, w, []).
Proof.
  intros Hsingle. unfold fire, bind, gets. cbn.
  destruct (isLive id w) eqn:Hlive; [| reflexivity].
  unfold clearTimeout, modifies. cbn.
  assert (Hempty : List.filter (fun t => negb (Nat.eqb id t)) (timers w) = []).
  { unfold isLive in Hlive. destruct Hsingle as [Hnil | (id' & Hone & _)].
    - rewrite Hnil in Hlive. discriminate.
    - rewrite Hone in *. cbn in *. rewrite orb_false_r in Hlive. now rewrite Hlive. }
  rewrite Hempty. now rewrite !triple_eta.
Qed.

Lemma reconnectCallback_down (host : Host) (w : World) :
  isShuttingDown w = true ->
  reconnectCallback host w = (tt, set_reconnectTimer None w, []).
Proof.
  intros Hdown. unfold reconnectCallback, bind, gets, modifies. cbn.
  now rewrite Hdown.
Qed.

Lemma reconnectCallback_cases (host : Host) (w : World) :
  timers w = [] ->
  isShuttingDown w = false ->
  exists es,
    reconnectCallback host w =
      (if canConnect host then
         (tt,
          {| hidDevice := Some (nextHandle w); reconnectTimer := None;
             isShuttingDown := false; timers := [];
             nextTimer := nextTimer w; nextHandle := S (nextHandle w) |},
          es)
       else
         (tt,
          {| hidDevice := None; reconnectTimer := Some (nextTimer w);
             isShuttingDown := false; timers := [nextTimer w];
             nextTimer := S (nextTimer w); nextHandle := nextHandle w |},
          es)) /\
    length (List.filter isOpen es) = (if canConnect host then 1 else 0)%nat /\
    length (List.filter isRetryNotice es) = (if canConnect host then 0 else 1)%nat.
Proof.
  intros Hnil Hdown. unfold reconnectCallback, bind, gets, modifies. cbn.
  rewrite Hdown.
  destruct (canConnect host) eqn:Hcan.
  - destruct (initBluetoothRemote_succeeds host (set_reconnectTimer None w) Hcan)
      as (es & -> & Hopen & Hretry).
    exists (es ++ []). cbn. rewrite Hnil, Hdown, app_nil_r.
    split; [reflexivity |]. rewrite Hopen, Hretry. split; reflexivity.
  - destruct (initBluetoothRemote_fails host (set_reconnectTimer None w) Hcan)
      as (es & -> & Hopen & Hretry).
    rewrite scheduleReconnect_cases. cbn. rewrite Hdown.
    exists (es ++ closing (set_reconnectTimer None w)
               ++ [ConsoleLog "Bluetooth disconnected, reconnecting in 3s..."]).
    unfold remaining. cbn. rewrite Hnil. cbn.
    split; [reflexivity |].
    rewrite !List.filter_app, Hopen, Hretry. unfold closing. cbn.
    destruct (hidDevice w); split; reflexivity.
Qed.

Lemma find_none_when_no_match (devices : list Device.info) :
  forallb (fun d => negb (matchesConfig d)) devices = true ->
  List.find matchesConfig devices = None.
Proof.
  induction devices as [| d rest IH]; cbn; [reflexivity |].
  destruct (matchesConfig d); cbn; [discriminate | exact IH].
Qed.

Lemma find_first_match (pre post : list Device.info) (d : Device.info) :
  forallb (fun d' => negb (matchesConfig d')) pre = true ->
  matchesConfig d = true ->
  List.find matchesConfig (pre ++ d :: post) = Some d.
Proof.
  induction pre as [| d' rest IH]; cbn; intros Hpre Hd; [now rewrite Hd |].
  destruct (matchesConfig d'); cbn in *; [discriminate | now apply IH].
Qed.

(** X22.  When no listed device has all four of the configured vendor id,
    product id, usage page and usage, [initBluetoothRemote] reports that
    the remote was not found and returns [false]; it opens nothing and
    changes no module variable.  An empty device list is such a case. *)
Theorem no_matching_device_is_not_found
    (devices : list Device.info) (ok : bool) (w : World) :
  forallb (fun d => negb (matchesConfig d)) devices = true ->
  initBluetoothRemote {| enumeration := Enumerated devices; opens := ok |} w
    = (false, w, [ConsoleLog "Bluetooth remote not found"]).
Proof.
  intros Hnone. unfold initBluetoothRemote. cbn [enumeration].
  rewrite (find_none_when_no_match devices Hnone). reflexivity.
Qed.

(** X23.  Only the first listed device that matches the configuration
    counts: the outcome is the same as if it were the only device listed.
    So when that entry has no usable path the remote is reported as not
    found even if a later matching entry has one. *)
Theorem first_matching_device_decides
    (pre post : list Device.info) (d : Device.info) (ok : bool) (w : World) :
  forallb (fun d' => negb (matchesConfig d')) pre = true ->
  matchesConfig d = true ->
  initBluetoothRemote {| enumeration := Enumerated (pre ++ d :: post); opens := ok |} w
    = initBluetoothRemote {| enumeration := Enumerated [d]; opens := ok |} w.
Proof.
  intros Hpre Hd. unfold initBluetoothRemote. cbn [enumeration].
  rewrite (find_first_match pre post d Hpre Hd). cbn [List.find]. now rewrite Hd.
Qed.

Lemma handle_singleTimer (ev : Event) (w : World) :
  singleTimer w -> singleTimer (exec (handle ev) w).
Proof.
  intros Hsingle. unfold exec. destruct ev as [host | message | id host |];
    cbn [handle].
  - unfold bind. destruct (canConnect host) eqn:Hcan.
    + destruct (initBluetoothRemote_succeeds host w Hcan) as (es & -> & _). exact Hsingle.
    + destruct (initBluetoothRemote_fails host w Hcan) as (es & -> & _). exact Hsingle.
  - unfold onError, bind, emit. rewrite scheduleReconnect_cases.
    destruct (isShuttingDown w); cbn [fst snd]; [exact Hsingle |].
    right. exists (nextTimer w). cbn. now rewrite (remaining_single w Hsingle).
  - rewrite (link_fire_cases id host w Hsingle).
    destruct (isLive id w); [| exact Hsingle].
    destruct (isShuttingDown w) eqn:Hdown.
    + rewrite reconnectCallback_down by reflexivity. now left.
    + destruct (reconnectCallback_cases host
                  {| hidDevice := hidDevice w; reconnectTimer := reconnectTimer w;
                     isShuttingDown := false; timers := [];
                     nextTimer := nextTimer w; nextHandle := nextHandle w |}
                  eq_refl eq_refl) as (es & -> & _).
      destruct (canConnect host); cbn; [now left |].
      right. now exists (nextTimer w).
  - rewrite cleanup_cases. cbn. left. exact (remaining_single w Hsingle).
Qed.

(** X24.  Through any calls of [initBluetoothRemote], device errors, timer
    events and [cleanup], in any order, at most one reconnect timer is
    scheduled at a time, and it is the one [reconnectTimer] names. *)
Theorem at_most_one_reconnect_timer (evs : list Event) (w : World) :
  singleTimer w -> singleTimer (exec (handleAll evs) w).
Proof.
  revert w. induction evs as [| ev rest IH]; intros w Hsingle; [exact Hsingle |].
  destruct (link_handleAll_cons ev rest w) as [_ ->].
  apply IH. now apply handle_singleTimer.
Qed.

(** While shutting down with no device, an event other than a direct call
    of [initBluetoothRemote] opens nothing and schedules nothing. *)
Lemma handle_when_down (ev : Event) (w : World) :
  isInit ev = false ->
  isShuttingDown w = true ->
  hidDevice w = None ->
  let w' := exec (handle ev) w in
  isShuttingDown w' = true /\ hidDevice w' = None /\ nextTimer w' = nextTimer w /\
  List.filter isOpen (effects (handle ev) w) = [] /\
  List.filter isRetryNotice (effects (handle ev) w) = [].
Proof.
  intros Hev Hdown Hdev. cbn zeta. unfold exec, effects.
  destruct ev as [host | message | id host |]; cbn [handle]; [discriminate | | |].
  - unfold onError, bind, emit. rewrite scheduleReconnect_cases, Hdown. cbn.
    repeat split; assumption.
  - unfold fire, reconnectCallback, bind, gets, clearTimeout, modifies. cbn.
    destruct (isLive id w); cbn; rewrite ?Hdown; cbn; repeat split; assumption.
  - rewrite cleanup_cases. unfold closing. rewrite Hdev. cbn. repeat split; assumption.
Qed.

(** X25.  [cleanup] is final for the reconnect loop: after it, whatever
    device errors and timer events still arrive, no device is opened, no
    retry is announced or scheduled, and [hidDevice] stays null. *)
Theorem nothing_reconnects_after_cleanup (evs : list Event) (w : World) :
  forallb (fun ev => negb (isInit ev)) evs = true ->
  let w0 := exec cleanup w in
  let w' := exec (handleAll evs) w0 in
  hidDevice w' = None /\
  isShuttingDown w' = true /\
  nextTimer w' = nextTimer w /\
  List.filter isOpen (effects (handleAll evs) w0) = [] /\
  List.filter isRetryNotice (effects (handleAll evs) w0) = [].
Proof.
  intros Hevs. cbn zeta.
  assert (Hstart : isShuttingDown (exec cleanup w) = true /\
                   hidDevice (exec cleanup w) = None /\
                   nextTimer (exec cleanup w) = nextTimer w)
    by (unfold exec; rewrite cleanup_cases; repeat split).
  destruct Hstart as (Hdown & Hdev & <-).
  generalize dependent (exec cleanup w). clear w.
  induction evs as [| ev rest IH]; intros w Hdown Hdev; [repeat split; assumption |].
  cbn in Hevs. apply andb_prop in Hevs as [Hev Hrest].
  apply negb_true_iff in Hev.
  destruct (link_handleAll_cons ev rest w) as [-> ->].
  destruct (handle_when_down ev w Hev Hdown Hdev) as (Hdown' & Hdev' & Hnext & Hopen & Hretry).
  destruct (IH Hrest _ Hdown' Hdev') as (IH1 & IH2 & IH3 & IH4 & IH5).
  rewrite !List.filter_app, Hopen, Hretry, IH4, IH5.
  repeat split; try assumption. congruence.
Qed.

Lemma awaitingRetry_single (w : World) : awaitingRetry w -> singleTimer w.
Proof.
  intros (_ & _ & id & Hone & Hrt). right. now exists id.
Qed.

(** One firing of the pending timer. *)
Lemma retry_step (host : Host) (w : World) :
  awaitingRetry w ->
  exists es,
    firePending host w =
      (if canConnect host then
         (tt,
          {| hidDevice := Some (nextHandle w); reconnectTimer := None;
             isShuttingDown := false; timers := [];
             nextTimer := nextTimer w; nextHandle := S (nextHandle w) |},
          es)
       else
         (tt,
          {| hidDevice := None; reconnectTimer := Some (nextTimer w);
             isShuttingDown := false; timers := [nextTimer w];
             nextTimer := S (nextTimer w); nextHandle := nextHandle w |},
          es)) /\
    length (List.filter isOpen es) = (if canConnect host then 1 else 0)%nat /\
    length (List.filter isRetryNotice es) = (if canConnect host then 0 else 1)%nat.
Proof.
  intros Hwait. pose proof (awaitingRetry_single w Hwait) as Hsingle.
  destruct Hwait as (Hdown & Hdev & id & Hone & Hrt).
  unfold firePending. rewrite Hrt, (link_fire_cases id host w Hsingle).
  unfold isLive. rewrite Hone. cbn [existsb]. rewrite Nat.eqb_refl. cbn [orb].
  rewrite Hdown.
  exact (reconnectCallback_cases host
           {| hidDevice := hidDevice w; reconnectTimer := reconnectTimer w;
              isShuttingDown := false; timers := [];
              nextTimer := nextTimer w; nextHandle := nextHandle w |}
           eq_refl eq_refl).
Qed.

(** X26.  The reconnect loop never gives up: while every attempt fails,
    each firing of the pending timer announces and schedules the next
    retry, so after any number of failures exactly one timer is pending
    again, no device has been opened and one retry has been announced per
    failure. *)
Theorem reconnect_keeps_trying (hosts : list Host) (w : World) :
  forallb (fun host => negb (canConnect host)) hosts = true ->
  awaitingRetry w ->
  awaitingRetry (exec (retry hosts) w) /\
  List.filter isOpen (effects (retry hosts) w) = [] /\
  length (List.filter isRetryNotice (effects (retry hosts) w)) = length hosts.
Proof.
  revert w. induction hosts as [| host rest IH]; intros w Hfail Hwait;
    [split; [exact Hwait | split; reflexivity] |].
  cbn in Hfail. apply andb_prop in Hfail as [Hhost Hrest].
  apply negb_true_iff in Hhost.
  destruct (retry_step host w Hwait) as (es & Hstep & Hopen & Hretry).
  rewrite Hhost in Hstep, Hopen, Hretry.
  unfold exec, effects in *. cbn [retry]. unfold bind. rewrite Hstep.
  pose (w1 := {| hidDevice := None; reconnectTimer := Some (nextTimer w);
                 isShuttingDown := false; timers := [nextTimer w];
                 nextTimer := S (nextTimer w); nextHandle := nextHandle w |}).
  assert (Hwait1 : awaitingRetry w1)
    by (repeat split; exists (nextTimer w); split; reflexivity).
  destruct (IH w1 Hrest Hwait1) as (IHwait & IHopen & IHretry). fold w1.
  destruct (retry rest w1) as [[u w2] es2]. cbn [fst snd app] in *.
  rewrite !List.filter_app, IHopen, length_app, IHretry, Hretry.
  apply length_zero_iff_nil in Hopen. rewrite Hopen.
  split; [exact IHwait | split; reflexivity].
Qed.

(** X27.  The first attempt that succeeds ends the loop: the device is
    opened once and stored in [hidDevice], no timer is left scheduled and
    no further retry is announced. *)
Theorem reconnect_stops_on_success (host : Host) (w : World) :
  canConnect host = true ->
  awaitingRetry w ->
  let w' := exec (retry [host]) w in
  hidDevice w' = Some (nextHandle w) /\
  timers w' = [] /\
  reconnectTimer w' = None /\
  length (List.filter isOpen (effects (retry [host]) w)) = 1%nat /\
  List.filter isRetryNotice (effects (retry [host]) w) = [].
Proof.
  intros Hcan Hwait. cbn zeta.
  destruct (retry_step host w Hwait) as (es & Hstep & Hopen & Hretry).
  rewrite Hcan in Hstep, Hopen, Hretry.
  unfold exec, effects. cbn [retry]. unfold bind. rewrite Hstep. cbn.
  rewrite app_nil_r.
  apply length_zero_iff_nil in Hretry. repeat split; assumption.
Qed.

(** X28.  Unless the link is shutting down, a device error closes the
    device that was open, announces the retry and leaves the link waiting
    with exactly one timer scheduled, whether or not a retry was pending
    already. *)
Theorem device_error_schedules_one_retry (message : string) (w : World) :
  isShuttingDown w = false ->
  singleTimer w ->
  awaitingRetry (exec (onError message) w) /\
  effects (onError message) w =
    ConsoleError ("HID error: " ++ message)
      :: closing w ++ [ConsoleLog "Bluetooth disconnected, reconnecting in 3s..."].
Proof.
  intros Hdown Hsingle. unfold exec, effects, onError, bind, emit.
  rewrite scheduleReconnect_cases, Hdown. cbn [fst snd app].
  rewrite (remaining_single w Hsingle). split; [| reflexivity].
  repeat split; try assumption. now exists (nextTimer w).
Qed.

(** Only a keyboard is listed. *)
Lemma no_matching_device_witness :
  initBluetoothRemote remoteAbsent world0
    = (false, world0, [ConsoleLog "Bluetooth remote not found"]).
Proof.
  exact (no_matching_device_is_not_found [sampleKeyboard] true world0 eq_refl).
Defined.

(** The remote is listed twice, first without a path. *)
Lemma first_matching_device_witness :
  initBluetoothRemote
    {| enumeration := Enumerated ([sampleKeyboard] ++ pathlessRemote :: [sampleRemote]);
       opens := true |} world0
    = (false, world0, [ConsoleLog "Bluetooth remote not found"]).
Proof.
  rewrite (first_matching_device_decides [sampleKeyboard] [sampleRemote]
             pathlessRemote true world0 eq_refl eq_refl).
  reflexivity.
Defined.

Lemma world0_singleTimer : singleTimer world0.
Proof. left. reflexivity. Defined.

(** Connect, lose the device, fail once, reconnect, shut down. *)
Lemma single_reconnect_timer_witness :
  singleTimer
    (exec (handleAll [Init remotePresent; DeviceError "disconnected";
                      TimerFires 0%nat remoteAbsent; TimerFires 1%nat remotePresent;
                      Cleanup]) world0).
Proof.
  exact (at_most_one_reconnect_timer _ world0 world0_singleTimer).
Defined.

(** A late error and the timer that was pending when [cleanup] ran. *)
Lemma nothing_reconnects_witness :
  let evs := [DeviceError "late"; TimerFires 0%nat remotePresent] in
  let w0 := exec cleanup disconnected in
  let w' := exec (handleAll evs) w0 in
  hidDevice w' = None /\
  isShuttingDown w' = true /\
  nextTimer w' = nextTimer disconnected /\
  List.filter isOpen (effects (handleAll evs) w0) = [] /\
  List.filter isRetryNotice (effects (handleAll evs) w0) = [].
Proof.
  exact (nothing_reconnects_after_cleanup
           [DeviceError "late"; TimerFires 0%nat remotePresent] disconnected eq_refl).
Defined.

Lemma disconnected_awaitingRetry : awaitingRetry disconnected.
Proof.
  split; [reflexivity |]. split; [reflexivity |].
  exists 0%nat. split; reflexivity.
Defined.

(** The remote stays away for three attempts. *)
Lemma three_failed_retries_witness :
  let hosts := [remoteAbsent; remoteAbsent; remoteAbsent] in
  awaitingRetry (exec (retry hosts) disconnected) /\
  List.filter isOpen (effects (retry hosts) disconnected) = [] /\
  length (List.filter isRetryNotice (effects (retry hosts) disconnected)) = 3%nat.
Proof.
  exact (reconnect_keeps_trying [remoteAbsent; remoteAbsent; remoteAbsent]
           disconnected eq_refl disconnected_awaitingRetry).
Defined.

(** The remote is back at the first attempt. *)
Lemma reconnect_stops_witness :
  let w' := exec (retry [remotePresent]) disconnected in
  hidDevice w' = Some 1%nat /\
  timers w' = [] /\
  reconnectTimer w' = None /\
  length (List.filter isOpen (effects (retry [remotePresent]) disconnected)) = 1%nat /\
  List.filter isRetryNotice (effects (retry [remotePresent]) disconnected) = [].
Proof.
  exact (reconnect_stops_on_success remotePresent disconnected eq_refl
           disconnected_awaitingRetry).
Defined.

(** The connected remote reports an error. *)
Lemma device_error_witness :
  let w := exec (initBluetoothRemote remotePresent) world0 in
  awaitingRetry (exec (onError "disconnected") w) /\
  effects (onError "disconnected") w =
    [ConsoleError "HID error: disconnected"; CloseDevice 0%nat;
     ConsoleLog "Bluetooth disconnected, reconnecting in 3s..."].
Proof.
  exact (device_error_schedules_one_retry "disconnected"
           (exec (initBluetoothRemote remotePresent) world0) eq_refl
           (or_introl eq_refl)).
Defined.

End RemoteLinkFacts.
